(** * PokeSwipeRN: the swipe screen as a state machine

    A shallow embedding of [SwipeScreen] (screens/SwipeScreen.tsx): the
    gesture handlers of its [PanResponder], the fetch helper
    [fetchPokemon], the advance [moveToNext] and the two commit actions
    [swipeRight] and [swipeLeft], together with the part of the
    [PokemonContext] store they call.

    Numbers that are pixel quantities (the screen width, the pointer
    delta, the animated position) are exact rationals [Q]; identifiers of
    creatures are integers [Z]. *)

From Stdlib Require Import List ZArith QArith Qabs String Bool Lia Arith.
From Stdlib Require Import DecimalString DecimalPos DecimalZ FinFun.
Import ListNotations.

Local Open Scope Z_scope.

(** ** Data model *)

(** [Pokemon] (types/pokemon.ts), the record decoded from the API:
    the screen reads [id], [name] and [types[i].type.name]. *)
Module Pokemon.
Record NamedResource := { name_of : string }.
Record TypeSlot := { type : NamedResource }.
Record t := { id : Z; name : string; types : list TypeSlot }.
End Pokemon.

(** [LikedPokemon], the object literal built in [swipeRight]. *)
Module LikedPokemon.
Record t := { id : Z; name : string; imageUrl : string; types : list string }.
End LikedPokemon.

(** The value of an [Animated.ValueXY]. *)
Record XY := { x : Q; y : Q }.

(** The part of a gesture state the handlers read. *)
Record Gesture := { dx : Q; dy : Q }.

(** Strict comparison of JS numbers, [a < b]. *)
Definition Qltb (a b : Q) : bool := negb (Qle_bool b a).

(** ** Helpers *)

(** [Array.prototype.includes] on an array of ids. *)
Definition includes (ids : list Z) (i : Z) : bool :=
  existsb (Z.eqb i) ids.

(** Modelled from the spec: [getOfficialArtworkUrl] of services/pokeApi.ts,
    "image derived as <artwork-base>/{id}.png"; the base is the one the
    README gives. *)
Definition artworkBase : string :=
  "https://raw.githubusercontent.com/PokeAPI/sprites/master/sprites/pokemon/other/official-artwork/".

Definition getOfficialArtworkUrl (i : Z) : string :=
  (artworkBase ++ NilZero.string_of_int (Z.to_int i) ++ ".png")%string.

(** The object literal [swipeRight] hands to [addLikedPokemon]. *)
Definition toLiked (p : Pokemon.t) : LikedPokemon.t :=
  {| LikedPokemon.id := Pokemon.id p;
     LikedPokemon.name := Pokemon.name p;
     LikedPokemon.imageUrl := getOfficialArtworkUrl (Pokemon.id p);
     LikedPokemon.types :=
       map (fun t => Pokemon.name_of (Pokemon.type t)) (Pokemon.types p) |}.

(** ** State *)

(** The variables of the component that a closure created during one
    render reads: [useState] hands every render its own constants, and a
    handler keeps those of the render that created it. *)
Module Render.
Record t := {
  isAnimating : bool;
  currentPokemon : option Pokemon.t;
  nextPokemon : option Pokemon.t;
  seenPokemonIds : list Z
}.
End Render.

Inductive Direction := ToRight | ToLeft.

(** An [Animated.timing] that was started and whose completion callback
    has not run yet: its target, which of the two callbacks it carries
    and the render that callback closes over. *)
Record Flight := {
  toValue : XY;
  direction : Direction;
  captured : Render.t
}.

Record State := mkState {
  (* PokemonContext *)
  likedPokemon : list LikedPokemon.t;
  seenPokemonIds : list Z;
  (* useState of SwipeScreen *)
  currentPokemon : option Pokemon.t;
  nextPokemon : option Pokemon.t;
  isInitialLoading : bool;
  error : option string;
  isAnimating : bool;
  (* useRef(new Animated.ValueXY()).current *)
  position : XY;
  (* the running Animated.spring, if any, with its target *)
  spring : option XY;
  (* the running Animated.timing animations, oldest first *)
  flights : list Flight;
  (* prefetchNext() calls that have not resolved yet, oldest first, each
     with the seenPokemonIds its fetchPokemon closes over *)
  prefetches : list (list Z);
  (* the card currently is the touch responder *)
  responder : bool;
  (* answers of the API consumed so far *)
  requests : nat
}.

Definition setLikedPokemon (v : list LikedPokemon.t) (s : State) : State :=
  mkState v (seenPokemonIds s) (currentPokemon s) (nextPokemon s)
    (isInitialLoading s) (error s) (isAnimating s) (position s) (spring s)
    (flights s) (prefetches s) (responder s) (requests s).

Definition setSeenPokemonIds (v : list Z) (s : State) : State :=
  mkState (likedPokemon s) v (currentPokemon s) (nextPokemon s)
    (isInitialLoading s) (error s) (isAnimating s) (position s) (spring s)
    (flights s) (prefetches s) (responder s) (requests s).

Definition setCurrentPokemon (v : option Pokemon.t) (s : State) : State :=
  mkState (likedPokemon s) (seenPokemonIds s) v (nextPokemon s)
    (isInitialLoading s) (error s) (isAnimating s) (position s) (spring s)
    (flights s) (prefetches s) (responder s) (requests s).

Definition setNextPokemon (v : option Pokemon.t) (s : State) : State :=
  mkState (likedPokemon s) (seenPokemonIds s) (currentPokemon s) v
    (isInitialLoading s) (error s) (isAnimating s) (position s) (spring s)
    (flights s) (prefetches s) (responder s) (requests s).

Definition setIsInitialLoading (v : bool) (s : State) : State :=
  mkState (likedPokemon s) (seenPokemonIds s) (currentPokemon s) (nextPokemon s)
    v (error s) (isAnimating s) (position s) (spring s)
    (flights s) (prefetches s) (responder s) (requests s).

Definition setError (v : option string) (s : State) : State :=
  mkState (likedPokemon s) (seenPokemonIds s) (currentPokemon s) (nextPokemon s)
    (isInitialLoading s) v (isAnimating s) (position s) (spring s)
    (flights s) (prefetches s) (responder s) (requests s).

Definition setIsAnimating (v : bool) (s : State) : State :=
  mkState (likedPokemon s) (seenPokemonIds s) (currentPokemon s) (nextPokemon s)
    (isInitialLoading s) (error s) v (position s) (spring s)
    (flights s) (prefetches s) (responder s) (requests s).

(** [position.setValue(v)]. *)
Definition setValue (v : XY) (s : State) : State :=
  mkState (likedPokemon s) (seenPokemonIds s) (currentPokemon s) (nextPokemon s)
    (isInitialLoading s) (error s) (isAnimating s) v (spring s)
    (flights s) (prefetches s) (responder s) (requests s).

Definition setSpring (v : option XY) (s : State) : State :=
  mkState (likedPokemon s) (seenPokemonIds s) (currentPokemon s) (nextPokemon s)
    (isInitialLoading s) (error s) (isAnimating s) (position s) v
    (flights s) (prefetches s) (responder s) (requests s).

Definition setFlights (v : list Flight) (s : State) : State :=
  mkState (likedPokemon s) (seenPokemonIds s) (currentPokemon s) (nextPokemon s)
    (isInitialLoading s) (error s) (isAnimating s) (position s) (spring s)
    v (prefetches s) (responder s) (requests s).

Definition setPrefetches (v : list (list Z)) (s : State) : State :=
  mkState (likedPokemon s) (seenPokemonIds s) (currentPokemon s) (nextPokemon s)
    (isInitialLoading s) (error s) (isAnimating s) (position s) (spring s)
    (flights s) v (responder s) (requests s).

Definition setResponder (v : bool) (s : State) : State :=
  mkState (likedPokemon s) (seenPokemonIds s) (currentPokemon s) (nextPokemon s)
    (isInitialLoading s) (error s) (isAnimating s) (position s) (spring s)
    (flights s) (prefetches s) v (requests s).

Definition setRequests (v : nat) (s : State) : State :=
  mkState (likedPokemon s) (seenPokemonIds s) (currentPokemon s) (nextPokemon s)
    (isInitialLoading s) (error s) (isAnimating s) (position s) (spring s)
    (flights s) (prefetches s) (responder s) v.

(** What a render of the component in state [s] closes over. *)
Definition render (s : State) : Render.t :=
  {| Render.isAnimating := isAnimating s;
     Render.currentPokemon := currentPokemon s;
     Render.nextPokemon := nextPokemon s;
     Render.seenPokemonIds := seenPokemonIds s |}.

(** ** The store (context/PokemonContext.tsx) *)

(** Modelled from the spec: [isLiked] of the store, which is not part of
    the sources at hand. The spec words it as "the current item's id is
    (not) already in the liked collection". *)
Definition isLiked (s : State) (i : Z) : bool :=
  includes (map LikedPokemon.id (likedPokemon s)) i.

(** Modelled from the spec: [addLikedPokemon] of the store, "add-to-liked
    (idempotent by id)", the liked collection being an "ordered sequence
    of LikedItem (insertion order = like order)". *)
Definition addLikedPokemon (p : LikedPokemon.t) (s : State) : State :=
  if isLiked s (LikedPokemon.id p) then s
  else setLikedPokemon (likedPokemon s ++ [p]) s.

(** Modelled from the spec: [addSeenPokemon] of the store, "mark-seen
    (id)" on the "set of seen numeric ids"; the screen reads that set as
    an array ([seenPokemonIds.includes]). *)
Definition addSeenPokemon (i : Z) (s : State) : State :=
  if includes (seenPokemonIds s) i then s
  else setSeenPokemonIds (seenPokemonIds s ++ [i]) s.

(** ** The screen (screens/SwipeScreen.tsx) *)

Section Screen.

(** [Dimensions.get('window').width]. *)
Variable width : Q.

(** The remote API as the screen meets it: the [k]-th call of
    [fetchRandomPokemon] (services/pokeApi.ts, a GET for an id drawn at
    random, followed by the JSON decoding) answers [net k]; [None] stands
    for a rejected promise, that is a network or decode failure. *)
Variable net : nat -> option Pokemon.t.

(** Minimum drag distance required to trigger a swipe action. *)
Definition SWIPE_THRESHOLD : Q := width * (1 # 4).

(** *** fetchPokemon *)

Definition maxAttempts : nat := 10.

(** The [do ... while] of [fetchPokemon] inside its [try]: [attempts]
    is the counter of the source, [k] the index of the next answer of
    the API. A rejected [fetchRandomPokemon] leaves the loop for the
    [catch], which returns [null]. [fuel] only bounds the recursion;
    [fetchLoop_fuel] shows that it never runs out. *)
Fixpoint fetchLoop (fuel : nat) (seen : list Z) (attempts k : nat)
  : option Pokemon.t * nat :=
  match net k with
  | None => (None, S k)
  | Some pokemon =>
      let attempts := S attempts in
      if includes seen (Pokemon.id pokemon) && (attempts <? maxAttempts)%nat
      then match fuel with
           | O => (Some pokemon, S k)
           | S fuel => fetchLoop fuel seen attempts (S k)
           end
      else (Some pokemon, S k)
  end.

(** [fetchPokemon]: the item or [None] (the source's [null]), and the
    index of the next unread answer. [seen] is the [seenPokemonIds]
    the callback closes over. [Image.prefetch] is not awaited and leaves
    no trace in the state. *)
Definition fetchPokemon (seen : list Z) (k : nat) : option Pokemon.t * nat :=
  fetchLoop maxAttempts seen 0 k.

(** The answers [k], ..., [k + n - 1] of the API are items whose ids are
    in [seen]. *)
Definition seenDraws (seen : list Z) (k n : nat) : Prop :=
  forall i, (i < n)%nat ->
    exists q, net (k + i)%nat = Some q /\ includes seen (Pokemon.id q) = true.

(** [prefetchNext()] is called without [await]: the call is recorded
    and resolves in a later turn of the event loop ([prefetchResolve]). *)
Definition prefetchNext (env : Render.t) (s : State) : State :=
  setPrefetches (prefetches s ++ [Render.seenPokemonIds env]) s.

Definition prefetchResolve (s : State) : State :=
  match prefetches s with
  | [] => s
  | seen :: rest =>
      let (pokemon, k) := fetchPokemon seen (requests s) in
      let s := setRequests k (setPrefetches rest s) in
      match pokemon with
      | Some p => setNextPokemon (Some p) s
      | None => s
      end
  end.

Definition fetchFailed : string := "Failed to fetch Pokémon. Please try again.".

(** The [init] of the mount effect. *)
Definition init (env : Render.t) (s : State) : State :=
  let s := setIsInitialLoading true s in
  let (pokemon, k) := fetchPokemon (Render.seenPokemonIds env) (requests s) in
  let s := setRequests k s in
  let s :=
    match pokemon with
    | Some p =>
        prefetchNext env (addSeenPokemon (Pokemon.id p) (setCurrentPokemon (Some p) s))
    | None => setError (Some fetchFailed) s
    end in
  setIsInitialLoading false s.

Definition handleRetry (env : Render.t) (s : State) : State :=
  let s := setError None (setIsInitialLoading true s) in
  let (pokemon, k) := fetchPokemon (Render.seenPokemonIds env) (requests s) in
  let s := setRequests k s in
  let s :=
    match pokemon with
    | Some p =>
        prefetchNext env (addSeenPokemon (Pokemon.id p) (setCurrentPokemon (Some p) s))
    | None => setError (Some fetchFailed) s
    end in
  setIsInitialLoading false s.

(** *** Animation helpers *)

Definition origin : XY := {| x := 0; y := 0 |}.

(** The spring comes to rest on its target. *)
Definition springEnd (s : State) : State :=
  match spring s with
  | Some target => setSpring None (setValue target s)
  | None => s
  end.

(** *** moveToNext *)

Definition moveToNext (env : Render.t) (s : State) : State :=
  match Render.nextPokemon env with
  | Some next =>
      prefetchNext env
        (setNextPokemon None
           (addSeenPokemon (Pokemon.id next) (setCurrentPokemon (Some next) s)))
  | None =>
      let (pokemon, k) := fetchPokemon (Render.seenPokemonIds env) (requests s) in
      let s := setRequests k s in
      match pokemon with
      | Some p =>
          prefetchNext env
            (addSeenPokemon (Pokemon.id p) (setCurrentPokemon (Some p) s))
      | None => s
      end
  end.

(** *** Swipe actions *)

Definition isNull {A} (o : option A) : bool :=
  match o with Some _ => false | None => true end.

(** [swipeRight] up to the start of the fly-out animation. Starting an
    animation on [position] stops a spring that still runs on it; the
    guard is what keeps the start from meeting a running fly-out. *)
Definition swipeRight (env : Render.t) (s : State) : State :=
  if Render.isAnimating env || isNull (Render.currentPokemon env) then s
  else
    let s := setIsAnimating true s in
    let s := setSpring None s in
    setFlights
      (flights s ++
         [{| toValue := {| x := width * (3 # 2); y := 50 |};
             direction := ToRight; captured := env |}]) s.

(** The callback [swipeRight] hands to [start]. *)
Definition swipeRightDone (env : Render.t) (s : State) : State :=
  let s :=
    match Render.currentPokemon env with
    | Some currentPokemon =>
        if negb (isLiked s (Pokemon.id currentPokemon))
        then addLikedPokemon (toLiked currentPokemon) s
        else s
    | None => s
    end in
  let s := setValue origin s in
  let s := setIsAnimating false s in
  moveToNext env s.

Definition swipeLeft (env : Render.t) (s : State) : State :=
  if Render.isAnimating env || isNull (Render.currentPokemon env) then s
  else
    let s := setIsAnimating true s in
    let s := setSpring None s in
    setFlights
      (flights s ++
         [{| toValue := {| x := - width * (3 # 2); y := 50 |};
             direction := ToLeft; captured := env |}]) s.

Definition swipeLeftDone (env : Render.t) (s : State) : State :=
  let s := setValue origin s in
  let s := setIsAnimating false s in
  moveToNext env s.

(** The oldest running fly-out ends and the callback handed to [start]
    runs. The callback does not look at its [finished] argument, so it
    does the same whether the animation ran its 400 ms or was stopped
    before. *)
Definition timingEnd (s : State) : State :=
  match flights s with
  | [] => s
  | f :: rest =>
      let s := setValue (toValue f) (setFlights rest s) in
      match direction f with
      | ToRight => swipeRightDone (captured f) s
      | ToLeft => swipeLeftDone (captured f) s
      end
  end.

(** *** Stopping the animation that runs on the position *)

(** The callback a fly-out was started with. *)
Definition flightCallback (f : Flight) (s : State) : State :=
  match direction f with
  | ToRight => swipeRightDone (captured f) s
  | ToLeft => swipeLeftDone (captured f) s
  end.

Fixpoint endFlights (fs : list Flight) (s : State) : State :=
  match fs with
  | [] => s
  | f :: fs => endFlights fs (flightCallback f s)
  end.

(** What React Native does with the animation that runs on [position]
    when the value is written with [setValue] or another animation is
    started on it: a spring is dropped; a fly-out is dropped and the
    callback handed to its [start] runs at once, with [finished: false],
    which the callbacks of the screen do not read. *)
Definition stopAnimation (s : State) : State :=
  endFlights (flights s) (setFlights [] (setSpring None s)).

(** [Animated.spring(position, {toValue}).start()]: what runs on the
    position is stopped, then the spring runs. *)
Definition resetPosition (s : State) : State :=
  setSpring (Some origin) (stopAnimation s).

Definition handleLike (env : Render.t) (s : State) : State := swipeRight env s.
Definition handleDislike (env : Render.t) (s : State) : State := swipeLeft env s.

(** *** Gesture handling *)

Definition onStartShouldSetPanResponder (env : Render.t) : bool :=
  negb (Render.isAnimating env).

Definition onMoveShouldSetPanResponder (env : Render.t) (gesture : Gesture) : bool :=
  negb (Render.isAnimating env) && Qltb 5 (Qabs (dx gesture)).

(** [position.setValue({x, y})] writes [x], then [y], and each write
    stops what runs on its component. A fly-out is a pair of timings, on
    [x] and on [y], whose callback runs when the second of them has
    ended: inside the write of [y], after [x] has got its value. The
    callback resets the position before [y] gets its value. *)
Definition onPanResponderMove (gesture : Gesture) (s : State) : State :=
  let s := setValue {| x := dx gesture; y := y (position s) |} s in
  let s := stopAnimation s in
  setValue {| x := x (position s); y := dy gesture * (1 # 2) |} s.

Definition onPanResponderRelease (env : Render.t) (gesture : Gesture) (s : State)
  : State :=
  if Qltb SWIPE_THRESHOLD (dx gesture) then swipeRight env s
  else if Qltb (dx gesture) (- SWIPE_THRESHOLD) then swipeLeft env s
  else resetPosition s.

(** *** The screen as a machine *)

(** The state of the first render, with the store as it was loaded. *)
Definition initial (liked : list LikedPokemon.t) (seen : list Z) : State :=
  {| likedPokemon := liked; seenPokemonIds := seen;
     currentPokemon := None; nextPokemon := None;
     isInitialLoading := true; error := None; isAnimating := false;
     position := origin; spring := None; flights := []; prefetches := [];
     responder := false; requests := O |}.

(** The card, with the pan handlers and the two buttons, is rendered
    only in the last branch of
    [isInitialLoading ? ... : error ? ... : currentPokemon ? ... : null]. *)
Definition cardShown (s : State) : bool :=
  negb (isInitialLoading s) && isNull (error s) && negb (isNull (currentPokemon s)).

Definition retryShown (s : State) : bool :=
  negb (isInitialLoading s) && negb (isNull (error s)).

Inductive Event :=
| Touch                    (* a finger lands on the card *)
| Move (gesture : Gesture) (* it moves *)
| Release (gesture : Gesture)
| PressLike
| PressDislike
| PressRetry
| TimingEnd
| SpringEnd
| PrefetchEnd.

(** One turn of the event loop. [mount] is what the first render closes
    over: [panResponder] is [useRef(PanResponder.create({...})).current],
    and [useRef] keeps the object it was given on the first render, so
    the four pan handlers stay those of that render and read its
    [isAnimating], [swipeRight], [swipeLeft] and [resetPosition].  The
    buttons get [handleLike] and [handleDislike] anew at every render:
    they close over the current state. *)
Definition step (mount : Render.t) (e : Event) (s : State) : State :=
  match e with
  | Touch =>
      if cardShown s && onStartShouldSetPanResponder mount
      then setResponder true s else s
  | Move gesture =>
      if responder s then onPanResponderMove gesture s
      else if cardShown s && onMoveShouldSetPanResponder mount gesture
           then setResponder true s else s
  | Release gesture =>
      if responder s
      then onPanResponderRelease mount gesture (setResponder false s)
      else s
  | PressLike => if cardShown s then handleLike (render s) s else s
  | PressDislike => if cardShown s then handleDislike (render s) s else s
  | PressRetry => if retryShown s then handleRetry (render s) s else s
  | TimingEnd => timingEnd s
  | SpringEnd => springEnd s
  | PrefetchEnd => prefetchResolve s
  end.

Fixpoint run (mount : Render.t) (es : list Event) (s : State) : State :=
  match es with
  | [] => s
  | e :: es => run mount es (step mount e s)
  end.

(** The screen from its mount on: the first render, the mount effect
    [init], then the events. *)
Definition session (liked : list LikedPokemon.t) (seen : list Z)
    (es : list Event) : State :=
  let s0 := initial liked seen in
  run (render s0) es (init (render s0) s0).

End Screen.

(** ** Properties of states the statements use *)

(** The ids of the liked collection, in like order. *)
Definition likedIds (s : State) : list Z := map LikedPokemon.id (likedPokemon s).

(** The store of [s'] has the liked collection of [s] and its seen ids. *)
Definition sameStore (s s' : State) : Prop :=
  likedPokemon s' = likedPokemon s /\ seenPokemonIds s' = seenPokemonIds s.

(** The liked collection of [s'] is the one of [s], followed by new
    items, and has no repeated id if the one of [s] has none. *)
Definition likedGrows (s s' : State) : Prop :=
  (exists more, likedPokemon s' = likedPokemon s ++ more) /\
  (NoDup (likedIds s) -> NoDup (likedIds s')).

(** The seen ids of [s'] are those of [s], followed by new ones. *)
Definition seenExtends (s s' : State) : Prop :=
  exists more, seenPokemonIds s' = seenPokemonIds s ++ more.

(** What the guard of the two commits does achieve: at most one fly-out
    is running, and [isAnimating] is set exactly while one is. *)
Definition oneFlight (s : State) : Prop :=
  (isAnimating s = true /\ exists f, flights s = [f]) \/
  (isAnimating s = false /\ flights s = []).

(** What C4 says of the helper: a failed request is made good by a later
    one within the ceiling, as a seen item is. *)
Definition failureRetried (net : nat -> option Pokemon.t) (seen : list Z) (k : nat)
  : Prop :=
  forall n p,
    (n < 10)%nat ->
    (forall i, (i < n)%nat ->
       net (k + i)%nat = None \/
       exists q, net (k + i)%nat = Some q /\ includes seen (Pokemon.id q) = true) ->
    net (k + n)%nat = Some p -> includes seen (Pokemon.id p) = false ->
    fst (fetchPokemon net seen k) = Some p.

(** What C5 says of the state after the swipe. *)
Definition likedAndSeenOnly (p : Pokemon.t) (s : State) : Prop :=
  likedPokemon s = [toLiked p] /\ seenPokemonIds s = [Pokemon.id p].

(** ** Concrete data for the examples *)

Definition creature (i : Z) (n ty : string) : Pokemon.t :=
  {| Pokemon.id := i; Pokemon.name := n;
     Pokemon.types := [ {| Pokemon.type := {| Pokemon.name_of := ty |} |} ] |}.

Definition pikachu : Pokemon.t := creature 25 "pikachu" "electric".
Definition bulbasaur : Pokemon.t := creature 1 "bulbasaur" "grass".
Definition charmander : Pokemon.t := creature 4 "charmander" "fire".

(** An API that answers from a finite script and fails afterwards. *)
Definition scripted (answers : list (option Pokemon.t)) (k : nat) : option Pokemon.t :=
  nth k answers None.

Definition threeAnswers : nat -> option Pokemon.t :=
  scripted [Some pikachu; Some bulbasaur; Some charmander].

(** An API that keeps answering with the same item. *)
Definition always (p : Pokemon.t) (k : nat) : option Pokemon.t := Some p.

(** ** What the screen shows *)

Inductive View := Loading | RetryPrompt | Card | Blank.

(** The conditional of the render:
    [isInitialLoading ? ... : error ? ... : currentPokemon ? ... : null]. *)
Definition view (s : State) : View :=
  if isInitialLoading s then Loading
  else match error s with
       | Some _ => RetryPrompt
       | None => match currentPokemon s with
                 | Some _ => Card
                 | None => Blank
                 end
       end.


(** Items are shown before they are liked: the current item, and the
    item of every running fly-out, has its id among the seen ids, and
    every liked id is a seen id or one of [base], the ids liked before
    the screen was mounted. *)
Definition shownFirst (base : list Z) (s : State) : Prop :=
  (forall p, currentPokemon s = Some p -> In (Pokemon.id p) (seenPokemonIds s)) /\
  (forall f p, In f (flights s) -> Render.currentPokemon (captured f) = Some p ->
               In (Pokemon.id p) (seenPokemonIds s)) /\
  (forall i, In i (likedIds s) -> In i base \/ In i (seenPokemonIds s)).

(** ** The liked grid (screens/LikedScreen.tsx) *)

(** [keyExtractor={(item) => item.id.toString()}], the id being an
    integer. *)
Definition keyExtractor (item : LikedPokemon.t) : string :=
  NilZero.string_of_int (Z.to_int (LikedPokemon.id item)).

(** * Proofs *)

Ltac fields :=
  cbn [likedPokemon seenPokemonIds currentPokemon nextPokemon isInitialLoading
       error isAnimating position spring flights prefetches responder requests
       setLikedPokemon setSeenPokemonIds setCurrentPokemon setNextPokemon
       setIsInitialLoading setError setIsAnimating setValue setSpring
       setFlights setPrefetches setResponder setRequests initial prefetchNext
       render Render.isAnimating Render.currentPokemon Render.nextPokemon
       Render.seenPokemonIds].

(** The fields of the state in which a commit callback hands over to
    [moveToNext]. *)
Ltac commit_frame :=
  unfold addLikedPokemon; fields;
  repeat match goal with
    | |- context [match ?e with Some _ => _ | None => _ end] => destruct e
    | |- context [if ?b then _ else _] => destruct b
    end;
  reflexivity.

(** ** Basic facts *)

Lemma Qltb_lt (a b : Q) : Qltb a b = true <-> (a < b)%Q.
Proof.
  unfold Qltb. rewrite negb_true_iff.
  split.
  - intros H. apply Qnot_le_lt. intros L.
    apply Qle_bool_iff in L. congruence.
  - intros H. destruct (Qle_bool b a) eqn:E; [|reflexivity].
    apply Qle_bool_iff in E. exfalso. exact (Qlt_not_le _ _ H E).
Qed.

Lemma Qltb_ge (a b : Q) : Qltb a b = false <-> (b <= a)%Q.
Proof.
  unfold Qltb. rewrite negb_false_iff. apply Qle_bool_iff.
Qed.

Lemma includes_In (ids : list Z) (i : Z) : includes ids i = true <-> In i ids.
Proof.
  unfold includes. rewrite existsb_exists. split.
  - intros [j [Hj E]]. apply Z.eqb_eq in E. subst. exact Hj.
  - intros H. exists i. split; [exact H | apply Z.eqb_refl].
Qed.

(** ** Release of a drag *)

Section Release.

Variable width : Q.
Variable net : nat -> option Pokemon.t.

Local Abbreviation T := (SWIPE_THRESHOLD width).

Lemma release_right env g s :
  (T < dx g)%Q ->
  onPanResponderRelease width net env g s = swipeRight width env s.
Proof.
  intros H. unfold onPanResponderRelease.
  apply Qltb_lt in H. rewrite H. reflexivity.
Qed.

Lemma release_left env g s :
  (0 <= width)%Q -> (dx g < - T)%Q ->
  onPanResponderRelease width net env g s = swipeLeft width env s.
Proof.
  intros W H. unfold onPanResponderRelease.
  assert (T0 : (0 <= T)%Q).
  { unfold SWIPE_THRESHOLD. apply Qmult_le_0_compat; [exact W | discriminate]. }
  assert (N : Qltb T (dx g) = false).
  { apply Qltb_ge. apply Qlt_le_weak. apply Qlt_le_trans with (- T)%Q; [exact H|].
    apply Qle_trans with 0%Q; [|exact T0].
    apply (Qopp_le_compat 0 T) in T0. exact T0. }
  rewrite N. apply Qltb_lt in H. rewrite H. reflexivity.
Qed.

Lemma release_reset env g s :
  (Qabs (dx g) <= T)%Q ->
  onPanResponderRelease width net env g s = resetPosition net s.
Proof.
  intros H. apply Qabs_Qle_condition in H. destruct H as [L U].
  unfold onPanResponderRelease.
  apply Qltb_ge in U. rewrite U.
  apply Qltb_ge in L. rewrite L. reflexivity.
Qed.

(** Which function a release calls, with [dx] the horizontal offset of
    the drag and [T] a quarter of the screen width: [swipeRight] for
    [dx > T], [swipeLeft] for [dx < -T], [resetPosition] for every other
    [dx], also for [dx = T] and [dx = -T]. What the function called then
    does depends on the render it belongs to. *)
Lemma release_rule env g s :
  (0 <= width)%Q ->
  ((T < dx g)%Q ->
     onPanResponderRelease width net env g s = swipeRight width env s) /\
  ((dx g < - T)%Q ->
     onPanResponderRelease width net env g s = swipeLeft width env s) /\
  ((Qabs (dx g) <= T)%Q ->
     onPanResponderRelease width net env g s = resetPosition net s) /\
  ((dx g == T)%Q \/ (dx g == - T)%Q ->
     onPanResponderRelease width net env g s = resetPosition net s).
Proof.
  intros W. repeat split.
  - apply release_right.
  - apply release_left. exact W.
  - apply release_reset.
  - intros E. apply release_reset. apply Qabs_Qle_condition.
    assert (T0 : (0 <= T)%Q).
    { unfold SWIPE_THRESHOLD. apply Qmult_le_0_compat; [exact W | discriminate]. }
    assert (N : (- T <= T)%Q).
    { apply Qle_trans with 0%Q; [|exact T0].
      apply (Qopp_le_compat 0 T) in T0. exact T0. }
    destruct E as [E|E]; rewrite E; split;
      try apply Qle_refl; exact N.
Qed.

End Release.

Lemma release_rule_example :
  let s := session 400 threeAnswers [] [] [PrefetchEnd] in
  let env := render s in
  (0 <= 400)%Q /\
  onPanResponderRelease 400 threeAnswers env {| dx := 200; dy := 0 |} s = swipeRight 400 env s /\
  onPanResponderRelease 400 threeAnswers env {| dx := -200; dy := 0 |} s = swipeLeft 400 env s /\
  onPanResponderRelease 400 threeAnswers env {| dx := 40; dy := 0 |} s = resetPosition threeAnswers s /\
  onPanResponderRelease 400 threeAnswers env {| dx := 100; dy := 0 |} s = resetPosition threeAnswers s /\
  onPanResponderRelease 400 threeAnswers env {| dx := -100; dy := 0 |} s = resetPosition threeAnswers s.
Proof.
  intros s env.
  assert (W : (0 <= 400)%Q) by discriminate.
  split; [exact W|].
  split.
  { destruct (release_rule 400 threeAnswers env {| dx := 200; dy := 0 |} s W) as [R _].
    apply R. reflexivity. }
  split.
  { destruct (release_rule 400 threeAnswers env {| dx := -200; dy := 0 |} s W) as [_ [L _]].
    apply L. reflexivity. }
  split.
  { destruct (release_rule 400 threeAnswers env {| dx := 40; dy := 0 |} s W) as [_ [_ [M _]]].
    apply M. apply Qle_bool_iff. reflexivity. }
  split.
  { destruct (release_rule 400 threeAnswers env {| dx := 100; dy := 0 |} s W) as [_ [_ [_ B]]].
    apply B. left. reflexivity. }
  { destruct (release_rule 400 threeAnswers env {| dx := -100; dy := 0 |} s W) as [_ [_ [_ B]]].
    apply B. right. reflexivity. }
Defined.

(** C1 fails on the code. A fresh start, the first item is on the card,
    the width is 400 and the threshold 100. The card is dragged to
    [dx = 200], or to [dx = -200], and released. The release reaches the
    [swipeRight], or [swipeLeft], of the first render, which has no
    current item and returns at its guard: no fly-out starts, nothing is
    liked, the same item stays on the card, and the card stays where it
    was dragged to. The [swipeRight] of the current render, the one the
    like button calls, starts the fly-out that ends in the like. *)
Theorem drag_release_commits_nothing :
  let mount := render (initial [] []) in
  let right := {| dx := 200; dy := 0 |} in
  let left := {| dx := -200; dy := 0 |} in
  let r := session 400 threeAnswers [] [] [PrefetchEnd; Touch; Move right] in
  let l := session 400 threeAnswers [] [] [PrefetchEnd; Touch; Move left] in
  let r' := run 400 threeAnswers mount [Release right; TimingEnd] r in
  let l' := run 400 threeAnswers mount [Release left; TimingEnd] l in
  (SWIPE_THRESHOLD 400 == 100)%Q /\
  (cardShown r = true /\ responder r = true /\ currentPokemon r = Some pikachu) /\
  (step 400 threeAnswers mount (Release right) r = setResponder false r /\
   flights r' = [] /\ isAnimating r' = false /\ likedPokemon r' = [] /\
   currentPokemon r' = Some pikachu /\ seenPokemonIds r' = [25] /\
   position r' = position r /\ x (position r') = 200%Q) /\
  (step 400 threeAnswers mount (Release left) l = setResponder false l /\
   flights l' = [] /\ isAnimating l' = false /\
   currentPokemon l' = Some pikachu /\ seenPokemonIds l' = [25] /\
   position l' = position l /\ x (position l') = (-200)%Q) /\
  (List.length (flights (swipeRight 400 (render r) r)) = 1%nat /\
   likedPokemon (timingEnd threeAnswers (swipeRight 400 (render r) r))
     = [toLiked pikachu] /\
   currentPokemon (timingEnd threeAnswers (swipeLeft 400 (render l) l))
     = Some bulbasaur).
Proof. vm_compute. repeat split. Qed.

(** ** The fetch helper *)

Section Fetch.

Variable net : nat -> option Pokemon.t.

Lemma fetchLoop_body fuel seen attempts k :
  fetchLoop net fuel seen attempts k =
  match net k with
  | None => (None, S k)
  | Some pokemon =>
      if includes seen (Pokemon.id pokemon) && (S attempts <? maxAttempts)%nat
      then match fuel with
           | O => (Some pokemon, S k)
           | S fuel => fetchLoop net fuel seen (S attempts) (S k)
           end
      else (Some pokemon, S k)
  end.
Proof. destruct fuel; reflexivity. Qed.

Lemma seenDraws_shift seen k n :
  seenDraws net seen k (S n) -> seenDraws net seen (S k) n.
Proof.
  intros H i Hi. destruct (H (S i)) as [q [E I]]; [lia|].
  exists q. split; [|exact I].
  replace (S k + i)%nat with (k + S i)%nat by lia. exact E.
Qed.

(** As long as seen items are drawn and the ceiling is not reached, the
    loop goes round; the fuel is enough for that. *)
Lemma fetchLoop_fuel n : forall fuel seen attempts k,
  (attempts + n < maxAttempts)%nat -> (n <= fuel)%nat ->
  seenDraws net seen k n ->
  fetchLoop net fuel seen attempts k =
  fetchLoop net (fuel - n) seen (attempts + n) (k + n).
Proof.
  induction n as [|n IH]; intros fuel seen attempts k A F D.
  - rewrite Nat.sub_0_r, !Nat.add_0_r. reflexivity.
  - rewrite fetchLoop_body.
    destruct (D O) as [q [E I]]; [lia|].
    rewrite Nat.add_0_r in E. rewrite E, I.
    assert (L : (S attempts <? maxAttempts)%nat = true) by (apply Nat.ltb_lt; lia).
    rewrite L. simpl andb. cbv iota.
    destruct fuel as [|fuel]; [lia|].
    rewrite (IH fuel seen (S attempts) (S k)); [|lia|lia|apply seenDraws_shift; exact D].
    f_equal; lia.
Qed.

Lemma fetchPokemon_unseen seen k n p :
  (n < maxAttempts)%nat -> seenDraws net seen k n ->
  net (k + n) = Some p -> includes seen (Pokemon.id p) = false ->
  fetchPokemon net seen k = (Some p, S (k + n)).
Proof.
  intros N D E I. unfold fetchPokemon.
  rewrite (fetchLoop_fuel n); [|lia|unfold maxAttempts in *; lia|exact D].
  rewrite fetchLoop_body, E, I. reflexivity.
Qed.

Lemma fetchPokemon_ceiling seen k p :
  seenDraws net seen k maxAttempts ->
  net (k + 9) = Some p ->
  fetchPokemon net seen k = (Some p, (k + 10)%nat).
Proof.
  intros D E. unfold fetchPokemon.
  rewrite (fetchLoop_fuel 9); [|unfold maxAttempts; lia|unfold maxAttempts; lia|].
  - rewrite fetchLoop_body, E. simpl Nat.add.
    replace (10 <? maxAttempts)%nat with false by reflexivity.
    rewrite andb_false_r. f_equal. lia.
  - intros i Hi. apply D. unfold maxAttempts. lia.
Qed.

Lemma fetchPokemon_failure seen k n :
  (n < maxAttempts)%nat -> seenDraws net seen k n ->
  net (k + n) = None ->
  fetchPokemon net seen k = (None, S (k + n)).
Proof.
  intros N D E. unfold fetchPokemon.
  rewrite (fetchLoop_fuel n); [|lia|unfold maxAttempts in *; lia|exact D].
  rewrite fetchLoop_body, E. reflexivity.
Qed.

(** C3. The helper draws items from the API one after the other. As long
    as the drawn item's id is in the seen-id set and fewer than 10 items
    have been drawn, it draws again. The first item whose id is not in
    the set is returned, after [n + 1 <= 10] draws; when the first 10
    draws all are seen items, the 10th is returned, after exactly 10
    draws, and not the failure signal. *)
Theorem fetchPokemon_retries seen k :
  (forall n p,
      (n < 10)%nat -> seenDraws net seen k n ->
      net (k + n) = Some p -> includes seen (Pokemon.id p) = false ->
      fetchPokemon net seen k = (Some p, (k + n + 1)%nat)) /\
  (forall p,
      seenDraws net seen k 10 -> net (k + 9) = Some p ->
      fetchPokemon net seen k = (Some p, (k + 10)%nat)).
Proof.
  split.
  - intros n p N D E I.
    rewrite (fetchPokemon_unseen seen k n p N D E I). f_equal. lia.
  - intros p D E. apply fetchPokemon_ceiling; assumption.
Qed.

End Fetch.

Lemma fetchPokemon_retries_witness :
  let later := scripted [Some pikachu; Some pikachu; Some pikachu; Some bulbasaur] in
  fetchPokemon later [25] 0 = (Some bulbasaur, 4%nat) /\
  fetchPokemon (always pikachu) [25] 0 = (Some pikachu, 10%nat).
Proof.
  intros later. split.
  - destruct (fetchPokemon_retries later [25] 0%nat) as [U _].
    apply (U 3%nat bulbasaur).
    + lia.
    + intros i Hi. exists pikachu.
      destruct i as [|[|[|i]]]; [split; reflexivity ..|lia].
    + reflexivity.
    + reflexivity.
  - destruct (fetchPokemon_retries (always pikachu) [25] 0%nat) as [_ C].
    apply (C pikachu).
    + intros i Hi. exists pikachu. split; reflexivity.
    + reflexivity.
Defined.

(** ** Frame lemmas *)

Section Frames.

Variable net : nat -> option Pokemon.t.

Lemma moveToNext_liked env s :
  likedPokemon (moveToNext net env s) = likedPokemon s.
Proof.
  unfold moveToNext, addSeenPokemon.
  destruct (Render.nextPokemon env) as [next|].
  - fields. destruct (includes (seenPokemonIds s) (Pokemon.id next)); reflexivity.
  - destruct (fetchPokemon net _ _) as [[p|] k]; [|reflexivity].
    fields. destruct (includes (seenPokemonIds s) (Pokemon.id p)); reflexivity.
Qed.

Lemma moveToNext_error env s :
  error (moveToNext net env s) = error s.
Proof.
  unfold moveToNext, addSeenPokemon.
  destruct (Render.nextPokemon env) as [next|].
  - fields. destruct (includes (seenPokemonIds s) (Pokemon.id next)); reflexivity.
  - destruct (fetchPokemon net _ _) as [[p|] k]; [|reflexivity].
    fields. destruct (includes (seenPokemonIds s) (Pokemon.id p)); reflexivity.
Qed.

Lemma prefetchResolve_error s :
  error (prefetchResolve net s) = error s.
Proof.
  unfold prefetchResolve. destruct (prefetches s) as [|seen rest]; [reflexivity|].
  destruct (fetchPokemon net seen (requests s)) as [[p|] k]; reflexivity.
Qed.

(** C4, as the code has it. A failure of a request is not retried: when
    one of the at most 10 requests of a call fails, the call ends there
    with the failure signal, whatever later requests would have answered.
    The screen shows the retry prompt exactly when the call made by the
    mount effect, or by its manual retry, returns that signal; a failing
    advance or prefetch shows nothing. *)
Theorem fetch_failure_ends_call seen k :
  (forall n,
      (n < 10)%nat -> seenDraws net seen k n -> net (k + n)%nat = None ->
      fetchPokemon net seen k = (None, (k + n + 1)%nat)) /\
  (forall env s,
      fst (fetchPokemon net (Render.seenPokemonIds env) (requests s)) = None ->
      error (init net env s) = Some fetchFailed /\
      currentPokemon (init net env s) = currentPokemon s) /\
  (forall env s p,
      fst (fetchPokemon net (Render.seenPokemonIds env) (requests s)) = Some p ->
      error (init net env s) = error s /\
      currentPokemon (init net env s) = Some p) /\
  (forall env s,
      error (handleRetry net env s) =
      match fst (fetchPokemon net (Render.seenPokemonIds env) (requests s)) with
      | Some _ => None
      | None => Some fetchFailed
      end) /\
  (forall env s, error (moveToNext net env s) = error s) /\
  (forall s, error (prefetchResolve net s) = error s).
Proof.
  split; [|split; [|split; [|split; [|split]]]].
  - intros n N D E.
    rewrite (fetchPokemon_failure net seen k n N D E). f_equal. lia.
  - intros env s H. unfold init. fields.
    destruct (fetchPokemon net _ _) as [[p|] k']; [discriminate|].
    split; reflexivity.
  - intros env s p H. unfold init, addSeenPokemon. fields.
    destruct (fetchPokemon net _ _) as [[q|] k']; [|discriminate].
    cbn [fst] in H. injection H as ->. fields.
    destruct (includes (seenPokemonIds s) (Pokemon.id p)); split; reflexivity.
  - intros env s. unfold handleRetry, addSeenPokemon. fields.
    destruct (fetchPokemon net _ _) as [[q|] k']; [|reflexivity].
    cbn [fst]. fields.
    destruct (includes (seenPokemonIds s) (Pokemon.id q)); reflexivity.
  - apply moveToNext_error.
  - apply prefetchResolve_error.
Qed.

End Frames.

(** C4 fails on the code: the first request fails, the second one would
    have answered with an unseen item, and the call returns the failure
    signal after one request. *)
Lemma failure_retried_counterexample :
  let net := scripted [None; Some bulbasaur] in
  fetchPokemon net [] 0 = (None, 1%nat) /\
  ~ failureRetried net [] 0.
Proof.
  intros net. split; [reflexivity|].
  intros H.
  specialize (H 1%nat bulbasaur).
  assert (E : fst (fetchPokemon net [] 0) = Some bulbasaur).
  { apply H.
    - lia.
    - intros i Hi. left. destruct i; [reflexivity|lia].
    - reflexivity.
    - reflexivity. }
  discriminate E.
Qed.

Lemma fetch_failure_ends_call_witness :
  let net := scripted [Some pikachu; None; Some bulbasaur] in
  fetchPokemon net [25] 0 = (None, 2%nat) /\
  error (init (scripted [None; Some bulbasaur]) (render (initial [] [])) (initial [] []))
    = Some fetchFailed /\
  error (init threeAnswers (render (initial [] [])) (initial [] [])) = None.
Proof.
  intros net. split; [|split].
  - destruct (fetch_failure_ends_call net [25] 0%nat) as [F _].
    apply (F 1%nat).
    + lia.
    + intros i Hi. exists pikachu. destruct i; [split; reflexivity|lia].
    + reflexivity.
  - destruct (fetch_failure_ends_call (scripted [None; Some bulbasaur]) [] 0%nat)
      as [_ [F _]].
    apply (F (render (initial [] [])) (initial [] [])). reflexivity.
  - destruct (fetch_failure_ends_call threeAnswers [] 0%nat) as [_ [_ [F _]]].
    apply (F (render (initial [] [])) (initial [] []) pikachu). reflexivity.
Defined.

(** ** The advance *)

Section Advance.

Variable net : nat -> option Pokemon.t.

(** C10. An advance that finds no prefetched item and whose replacement
    fetch returns the failure signal changes nothing: the state after it
    is the state before it, but for the requests spent on the API. The
    current item still is the one just committed, the seen-id set and the
    liked collection are untouched by the advance, and no error is set.
    So it is for the advance at the end of either commit. *)
Theorem failed_advance_changes_nothing env s :
  Render.nextPokemon env = None ->
  fst (fetchPokemon net (Render.seenPokemonIds env) (requests s)) = None ->
  let k := snd (fetchPokemon net (Render.seenPokemonIds env) (requests s)) in
  let s' := moveToNext net env s in
  s' = setRequests k s /\
  currentPokemon s' = currentPokemon s /\
  nextPokemon s' = nextPokemon s /\
  seenPokemonIds s' = seenPokemonIds s /\
  likedPokemon s' = likedPokemon s /\
  error s' = error s /\
  currentPokemon (swipeRightDone net env s) = currentPokemon s /\
  seenPokemonIds (swipeRightDone net env s) = seenPokemonIds s /\
  error (swipeRightDone net env s) = error s /\
  currentPokemon (swipeLeftDone net env s) = currentPokemon s /\
  seenPokemonIds (swipeLeftDone net env s) = seenPokemonIds s /\
  likedPokemon (swipeLeftDone net env s) = likedPokemon s /\
  error (swipeLeftDone net env s) = error s.
Proof.
  intros N F k s'.
  assert (M : forall t, requests t = requests s ->
                        moveToNext net env t = setRequests k t).
  { intros t R. unfold moveToNext. rewrite N, R. subst k.
    destruct (fetchPokemon net (Render.seenPokemonIds env) (requests s)) as [[p|] k'];
      [discriminate|reflexivity]. }
  subst s'. rewrite (M s eq_refl).
  unfold swipeRightDone, swipeLeftDone.
  repeat split; (rewrite M; [|commit_frame]); commit_frame.
Qed.

End Advance.

Lemma failed_advance_changes_nothing_witness :
  let net := scripted [Some pikachu; None; None] in
  let s := session 400 net [] [] [PrefetchEnd; PressLike] in
  let env := render s in
  Render.nextPokemon env = None /\
  moveToNext net env s = setRequests 3 s /\
  currentPokemon (swipeRightDone net env s) = Some pikachu.
Proof.
  intros net s env.
  assert (N : Render.nextPokemon env = None) by reflexivity.
  assert (F : fst (fetchPokemon net (Render.seenPokemonIds env) (requests s)) = None)
    by reflexivity.
  pose proof (failed_advance_changes_nothing net env s N F) as P.
  cbn zeta in P.
  split; [exact N|]. split.
  - exact (proj1 P).
  - destruct P as [_ [_ [_ [_ [_ [_ [C _]]]]]]]. rewrite C. reflexivity.
Defined.

(** ** Invariants of the machine *)

Lemma sameStore_refl s : sameStore s s.
Proof. split; reflexivity. Qed.

Lemma sameStore_trans s1 s2 s3 :
  sameStore s1 s2 -> sameStore s2 s3 -> sameStore s1 s3.
Proof. intros [A B] [C D]. split; congruence. Qed.

Lemma seenExtends_refl s : seenExtends s s.
Proof. exists []. rewrite app_nil_r. reflexivity. Qed.

Lemma seenExtends_trans s1 s2 s3 :
  seenExtends s1 s2 -> seenExtends s2 s3 -> seenExtends s1 s3.
Proof.
  intros [m1 E1] [m2 E2]. exists (m1 ++ m2).
  rewrite E2, E1, app_assoc. reflexivity.
Qed.

Lemma seenExtends_same s s' :
  seenPokemonIds s' = seenPokemonIds s -> seenExtends s s'.
Proof. intros E. exists []. rewrite app_nil_r. exact E. Qed.

Lemma sameStore_seenExtends s s' : sameStore s s' -> seenExtends s s'.
Proof. intros [_ E]. exists []. rewrite app_nil_r. exact E. Qed.

Lemma addSeenPokemon_seen i s : seenExtends s (addSeenPokemon i s).
Proof.
  unfold addSeenPokemon. destruct (includes (seenPokemonIds s) i).
  - apply seenExtends_refl.
  - exists [i]. reflexivity.
Qed.

Lemma addSeenPokemon_liked i s :
  likedPokemon (addSeenPokemon i s) = likedPokemon s.
Proof.
  unfold addSeenPokemon. destruct (includes (seenPokemonIds s) i); reflexivity.
Qed.

Lemma addLikedPokemon_seen p s :
  seenPokemonIds (addLikedPokemon p s) = seenPokemonIds s.
Proof.
  unfold addLikedPokemon. destruct (isLiked s (LikedPokemon.id p)); reflexivity.
Qed.

Section Invariants.

Variable width : Q.
Variable net : nat -> option Pokemon.t.

Lemma swipeRight_store env s : sameStore s (swipeRight width env s).
Proof.
  unfold swipeRight.
  destruct (Render.isAnimating env || isNull (Render.currentPokemon env));
    split; reflexivity.
Qed.

Lemma swipeLeft_store env s : sameStore s (swipeLeft width env s).
Proof.
  unfold swipeLeft.
  destruct (Render.isAnimating env || isNull (Render.currentPokemon env));
    split; reflexivity.
Qed.

Lemma springEnd_store s : sameStore s (springEnd s).
Proof. unfold springEnd. destruct (spring s); split; reflexivity. Qed.

Lemma prefetchResolve_store s : sameStore s (prefetchResolve net s).
Proof.
  unfold prefetchResolve. destruct (prefetches s) as [|seen rest]; [apply sameStore_refl|].
  destruct (fetchPokemon net seen (requests s)) as [[p|] k]; split; reflexivity.
Qed.

(** What [init], [handleRetry] and [moveToNext] do with a fetched item. *)
Lemma present_seen env p s :
  seenExtends s
    (prefetchNext env (addSeenPokemon (Pokemon.id p) (setCurrentPokemon (Some p) s))).
Proof.
  destruct (addSeenPokemon_seen (Pokemon.id p) (setCurrentPokemon (Some p) s))
    as [more E].
  exists more. exact E.
Qed.

Lemma present_liked env p s :
  likedPokemon
    (prefetchNext env (addSeenPokemon (Pokemon.id p) (setCurrentPokemon (Some p) s)))
  = likedPokemon s.
Proof.
  unfold prefetchNext. cbn [likedPokemon setPrefetches].
  rewrite addSeenPokemon_liked. reflexivity.
Qed.

Lemma handleRetry_seen env s : seenExtends s (handleRetry net env s).
Proof.
  unfold handleRetry.
  destruct (fetchPokemon net _ _) as [[p|] k].
  - destruct (present_seen env p
                (setRequests k (setError None (setIsInitialLoading true s))))
      as [more E].
    exists more. exact E.
  - apply seenExtends_same; reflexivity.
Qed.

Lemma handleRetry_liked env s :
  likedPokemon (handleRetry net env s) = likedPokemon s.
Proof.
  unfold handleRetry.
  destruct (fetchPokemon net _ _) as [[p|] k]; [|reflexivity].
  cbn [likedPokemon setIsInitialLoading]. rewrite present_liked. reflexivity.
Qed.

Lemma moveToNext_seen env s : seenExtends s (moveToNext net env s).
Proof.
  unfold moveToNext. destruct (Render.nextPokemon env) as [next|].
  - destruct (addSeenPokemon_seen (Pokemon.id next) (setCurrentPokemon (Some next) s))
      as [more E].
    exists more. exact E.
  - destruct (fetchPokemon net _ _) as [[p|] k].
    + destruct (present_seen env p (setRequests k s)) as [more E].
      exists more. exact E.
    + apply seenExtends_same; reflexivity.
Qed.

Lemma swipeRightDone_seen env s : seenExtends s (swipeRightDone net env s).
Proof.
  unfold swipeRightDone.
  eapply seenExtends_trans; [|apply moveToNext_seen].
  exists []. rewrite app_nil_r. cbn [seenPokemonIds setIsAnimating setValue].
  destruct (Render.currentPokemon env) as [p|]; [|reflexivity].
  destruct (negb (isLiked s (Pokemon.id p))); [|reflexivity].
  apply addLikedPokemon_seen.
Qed.

Lemma swipeLeftDone_seen env s : seenExtends s (swipeLeftDone net env s).
Proof.
  unfold swipeLeftDone.
  eapply seenExtends_trans; [|apply moveToNext_seen].
  apply seenExtends_same; reflexivity.
Qed.

Lemma timingEnd_seen s : seenExtends s (timingEnd net s).
Proof.
  unfold timingEnd. destruct (flights s) as [|f rest]; [apply seenExtends_same; reflexivity|].
  destruct (direction f).
  - destruct (swipeRightDone_seen (captured f) (setValue (toValue f) (setFlights rest s)))
      as [more E].
    exists more. exact E.
  - destruct (swipeLeftDone_seen (captured f) (setValue (toValue f) (setFlights rest s)))
      as [more E].
    exists more. exact E.
Qed.

Lemma flightCallback_seen f s : seenExtends s (flightCallback net f s).
Proof.
  unfold flightCallback. destruct (direction f);
    [apply swipeRightDone_seen | apply swipeLeftDone_seen].
Qed.

Lemma endFlights_seen fs : forall s, seenExtends s (endFlights net fs s).
Proof.
  induction fs as [|f fs IH]; intros s; [apply seenExtends_refl|].
  cbn [endFlights]. eapply seenExtends_trans; [apply flightCallback_seen | apply IH].
Qed.

Lemma stopAnimation_seen s : seenExtends s (stopAnimation net s).
Proof.
  unfold stopAnimation.
  eapply seenExtends_trans; [|apply endFlights_seen].
  apply seenExtends_same; reflexivity.
Qed.

Lemma resetPosition_seen s : seenExtends s (resetPosition net s).
Proof.
  unfold resetPosition.
  eapply seenExtends_trans; [apply stopAnimation_seen|].
  apply seenExtends_same; reflexivity.
Qed.

Lemma move_seen g s : seenExtends s (onPanResponderMove net g s).
Proof.
  unfold onPanResponderMove.
  eapply seenExtends_trans; [|apply seenExtends_same; reflexivity].
  eapply seenExtends_trans; [|apply stopAnimation_seen].
  apply seenExtends_same; reflexivity.
Qed.

Lemma release_seen env g s :
  seenExtends s (onPanResponderRelease width net env g s).
Proof.
  unfold onPanResponderRelease.
  destruct (Qltb (SWIPE_THRESHOLD width) (dx g));
    [apply sameStore_seenExtends; apply swipeRight_store|].
  destruct (Qltb (dx g) (- SWIPE_THRESHOLD width));
    [apply sameStore_seenExtends; apply swipeLeft_store|].
  apply resetPosition_seen.
Qed.

(** The seen ids after a step are those before it, followed by new
    ones. *)
Lemma step_seen mount e s : seenExtends s (step width net mount e s).
Proof.
  destruct e; cbn [step].
  - destruct (cardShown s && onStartShouldSetPanResponder mount);
      apply seenExtends_same; reflexivity.
  - destruct (responder s); [apply move_seen|].
    destruct (cardShown s && onMoveShouldSetPanResponder mount gesture);
      apply seenExtends_same; reflexivity.
  - destruct (responder s); [|apply seenExtends_same; reflexivity].
    eapply seenExtends_trans;
      [|apply (release_seen mount gesture (setResponder false s))].
    apply seenExtends_same; reflexivity.
  - destruct (cardShown s); [|apply seenExtends_same; reflexivity].
    apply sameStore_seenExtends. apply swipeRight_store.
  - destruct (cardShown s); [|apply seenExtends_same; reflexivity].
    apply sameStore_seenExtends. apply swipeLeft_store.
  - destruct (retryShown s); [|apply seenExtends_same; reflexivity].
    apply handleRetry_seen.
  - apply timingEnd_seen.
  - apply sameStore_seenExtends. apply springEnd_store.
  - apply sameStore_seenExtends. apply prefetchResolve_store.
Qed.

Lemma run_seen mount es : forall s, seenExtends s (run width net mount es s).
Proof.
  induction es as [|e es IH]; intros s.
  - apply seenExtends_refl.
  - simpl. eapply seenExtends_trans; [apply step_seen | apply IH].
Qed.

(** C8. Whatever the events (releases, button presses, ends of
    animations, prefetches that resolve) and whatever the render the pan
    handlers close over, the seen ids after them are the seen ids before
    them followed by new ones: no id is removed, and the number of ids,
    counted with or without repetitions, does not go down. An advance
    alone, with a prefetched item or without, does the same. *)
Theorem seen_only_grows mount es s :
  let s' := run width net mount es s in
  (exists more, seenPokemonIds s' = seenPokemonIds s ++ more) /\
  incl (seenPokemonIds s) (seenPokemonIds s') /\
  (List.length (seenPokemonIds s) <= List.length (seenPokemonIds s'))%nat /\
  (List.length (nodup Z.eq_dec (seenPokemonIds s))
   <= List.length (nodup Z.eq_dec (seenPokemonIds s')))%nat /\
  (forall env,
      exists more, seenPokemonIds (moveToNext net env s) = seenPokemonIds s ++ more).
Proof.
  intros s'. destruct (run_seen mount es s) as [more E]. fold s' in E.
  unfold seenExtends.
  assert (I : incl (seenPokemonIds s) (seenPokemonIds s')).
  { rewrite E. apply incl_appl. apply incl_refl. }
  split; [exists more; exact E|].
  split; [exact I|].
  split; [rewrite E, List.length_app; lia|].
  split.
  - apply NoDup_incl_length; [apply NoDup_nodup|].
    intros i Hi. apply nodup_In. apply I. apply nodup_In in Hi. exact Hi.
  - intros env. apply moveToNext_seen.
Qed.

End Invariants.

(** ** The liked collection *)

Section Liked.

Variable width : Q.
Variable net : nat -> option Pokemon.t.

Lemma swipeRightDone_liked env s :
  likedPokemon (swipeRightDone net env s) =
  match Render.currentPokemon env with
  | Some p => if isLiked s (Pokemon.id p) then likedPokemon s
              else likedPokemon s ++ [toLiked p]
  | None => likedPokemon s
  end.
Proof.
  unfold swipeRightDone. rewrite moveToNext_liked.
  destruct (Render.currentPokemon env) as [p|]; [|reflexivity].
  destruct (isLiked s (Pokemon.id p)) eqn:L; cbn [negb]; [reflexivity|].
  unfold addLikedPokemon. cbn [toLiked LikedPokemon.id]. rewrite L. reflexivity.
Qed.

Lemma likedGrows_same s s' : likedPokemon s' = likedPokemon s -> likedGrows s s'.
Proof.
  intros E. unfold likedGrows, likedIds. rewrite E. split; [|tauto].
  exists []. rewrite app_nil_r. reflexivity.
Qed.

Lemma likedGrows_trans s1 s2 s3 :
  likedGrows s1 s2 -> likedGrows s2 s3 -> likedGrows s1 s3.
Proof.
  intros [[m1 E1] N1] [[m2 E2] N2]. split; [|tauto].
  exists (m1 ++ m2). rewrite E2, E1, app_assoc. reflexivity.
Qed.

Lemma swipeRightDone_grows env s : likedGrows s (swipeRightDone net env s).
Proof.
  unfold likedGrows, likedIds. rewrite swipeRightDone_liked.
  destruct (Render.currentPokemon env) as [p|];
    [|split; [exists []; rewrite app_nil_r; reflexivity | tauto]].
  destruct (isLiked s (Pokemon.id p)) eqn:L;
    [split; [exists []; rewrite app_nil_r; reflexivity | tauto]|].
  split; [exists [toLiked p]; reflexivity|].
  intros N. rewrite map_app. cbn [map].
  apply NoDup_app; [exact N | repeat constructor; intros [] |].
  intros i Hi [<- | []].
  apply includes_In in Hi. unfold isLiked in L. cbn [toLiked LikedPokemon.id] in Hi.
  congruence.
Qed.

Lemma swipeLeftDone_grows env s : likedGrows s (swipeLeftDone net env s).
Proof.
  apply likedGrows_same. unfold swipeLeftDone. rewrite moveToNext_liked. reflexivity.
Qed.

Lemma flightCallback_grows f s : likedGrows s (flightCallback net f s).
Proof.
  unfold flightCallback. destruct (direction f);
    [apply swipeRightDone_grows | apply swipeLeftDone_grows].
Qed.

Lemma endFlights_grows fs : forall s, likedGrows s (endFlights net fs s).
Proof.
  induction fs as [|f fs IH]; intros s; [apply likedGrows_same; reflexivity|].
  cbn [endFlights]. eapply likedGrows_trans; [apply flightCallback_grows | apply IH].
Qed.

Lemma stopAnimation_grows s : likedGrows s (stopAnimation net s).
Proof.
  unfold stopAnimation.
  eapply likedGrows_trans; [|apply endFlights_grows].
  apply likedGrows_same; reflexivity.
Qed.

Lemma resetPosition_grows s : likedGrows s (resetPosition net s).
Proof.
  unfold resetPosition.
  eapply likedGrows_trans; [apply stopAnimation_grows|].
  apply likedGrows_same; reflexivity.
Qed.

Lemma move_grows g s : likedGrows s (onPanResponderMove net g s).
Proof.
  unfold onPanResponderMove.
  eapply likedGrows_trans; [|apply likedGrows_same; reflexivity].
  eapply likedGrows_trans; [|apply stopAnimation_grows].
  apply likedGrows_same; reflexivity.
Qed.

Lemma release_grows env g s :
  likedGrows s (onPanResponderRelease width net env g s).
Proof.
  unfold onPanResponderRelease.
  destruct (Qltb (SWIPE_THRESHOLD width) (dx g));
    [apply likedGrows_same; apply swipeRight_store|].
  destruct (Qltb (dx g) (- SWIPE_THRESHOLD width));
    [apply likedGrows_same; apply swipeLeft_store|].
  apply resetPosition_grows.
Qed.

Lemma timingEnd_grows s : likedGrows s (timingEnd net s).
Proof.
  unfold timingEnd. destruct (flights s) as [|f rest];
    [apply likedGrows_same; reflexivity|].
  eapply likedGrows_trans;
    [|destruct (direction f); [apply swipeRightDone_grows | apply swipeLeftDone_grows]].
  apply likedGrows_same; reflexivity.
Qed.

Lemma step_grows mount e s : likedGrows s (step width net mount e s).
Proof.
  destruct e; cbn [step].
  - destruct (cardShown s && onStartShouldSetPanResponder mount);
      apply likedGrows_same; reflexivity.
  - destruct (responder s); [apply move_grows|].
    destruct (cardShown s && onMoveShouldSetPanResponder mount gesture);
      apply likedGrows_same; reflexivity.
  - destruct (responder s); [|apply likedGrows_same; reflexivity].
    eapply likedGrows_trans;
      [|apply (release_grows mount gesture (setResponder false s))].
    apply likedGrows_same; reflexivity.
  - destruct (cardShown s); [|apply likedGrows_same; reflexivity].
    apply likedGrows_same. apply swipeRight_store.
  - destruct (cardShown s); [|apply likedGrows_same; reflexivity].
    apply likedGrows_same. apply swipeLeft_store.
  - destruct (retryShown s); [|apply likedGrows_same; reflexivity].
    apply likedGrows_same. apply handleRetry_liked.
  - apply timingEnd_grows.
  - apply likedGrows_same. apply springEnd_store.
  - apply likedGrows_same. apply prefetchResolve_store.
Qed.

Lemma run_grows mount es : forall s, likedGrows s (run width net mount es s).
Proof.
  induction es as [|e es IH]; intros s; [apply likedGrows_same; reflexivity|].
  cbn [run]. eapply likedGrows_trans; [apply step_grows | apply IH].
Qed.

Lemma NoDup_likedIds_run mount es : forall s,
  NoDup (likedIds s) -> NoDup (likedIds (run width net mount es s)).
Proof. intros s. apply run_grows. Qed.

(** C2. The callback that ends a commit to the right of the item [p]
    appends the liked item made of [p], and nothing else, when the id of
    [p] is not in the liked collection, and leaves the collection as it
    is when the id is in it. Hence, from a collection without repeated
    ids, no sequence of events leads to a collection in which an id
    occurs twice. *)
Theorem like_appends_once :
  (forall env s p,
      Render.currentPokemon env = Some p ->
      (isLiked s (Pokemon.id p) = false ->
         likedPokemon (swipeRightDone net env s) = likedPokemon s ++ [toLiked p]) /\
      (isLiked s (Pokemon.id p) = true ->
         likedPokemon (swipeRightDone net env s) = likedPokemon s)) /\
  (forall mount es s,
      NoDup (likedIds s) ->
      NoDup (likedIds (run width net mount es s)) /\
      forall i, (count_occ Z.eq_dec (likedIds (run width net mount es s)) i <= 1)%nat).
Proof.
  split.
  - intros env s p C. rewrite swipeRightDone_liked, C.
    split; intros L; rewrite L; reflexivity.
  - intros mount es s N.
    pose proof (NoDup_likedIds_run mount es s N) as R.
    split; [exact R|]. apply NoDup_count_occ. exact R.
Qed.

End Liked.

Lemma like_appends_once_witness :
  let net := always pikachu in
  let mount := render (initial [] []) in
  let s := session 400 net [] [] [PrefetchEnd; PressLike] in
  let s' := run 400 net mount [TimingEnd; PrefetchEnd; PressLike; TimingEnd] s in
  likedPokemon (swipeRightDone net (render s) s) = [toLiked pikachu] /\
  NoDup (likedIds s) /\
  NoDup (likedIds s') /\
  likedIds s' = [25].
Proof.
  intros net mount s s'.
  destruct (like_appends_once 400 net) as [A B].
  split.
  - apply (A (render s) s pikachu); reflexivity.
  - assert (N : NoDup (likedIds s)) by constructor.
    split; [exact N|].
    split; [exact (proj1 (B mount [TimingEnd; PrefetchEnd; PressLike; TimingEnd] s N))|].
    reflexivity.
Defined.

Lemma seen_only_grows_example :
  let net := threeAnswers in
  let mount := render (initial [] []) in
  let s := session 400 net [] [] [] in
  let s' := run 400 net mount [PressDislike; TimingEnd; PressLike; TimingEnd] s in
  seenPokemonIds s = [25] /\ seenPokemonIds s' = [25; 1; 4] /\ likedIds s' = [1].
Proof. repeat split. Qed.

(** ** The scenario of the spec: fresh start, item 25, swipe right *)

(** C5 fails on the code. The store is empty, the first answer of the
    API is item 25, the second, which the prefetch receives, is item 1;
    the screen is 400 wide, so that [T] is 100, and the card is dragged
    to [dx = 200] and released. With the pan handlers of the screen
    nothing is liked. Were the release handled by the [swipeRight] of the
    current render, as a press on the like button is, item 25 would be
    liked and the seen ids would be 25 and 1. *)
Lemma like_scenario_counterexample :
  let g := {| dx := 200; dy := 0 |} in
  let dragged := session 400 threeAnswers [] [] [PrefetchEnd; Touch; Move g] in
  (SWIPE_THRESHOLD 400 == 100)%Q /\
  currentPokemon dragged = Some pikachu /\
  likedPokemon dragged = [] /\
  seenPokemonIds dragged = [25] /\
  ~ likedAndSeenOnly pikachu
      (run 400 threeAnswers (render (initial [] [])) [Release g; TimingEnd] dragged) /\
  ~ likedAndSeenOnly pikachu
      (timingEnd threeAnswers
         (onPanResponderRelease 400 threeAnswers (render dragged) g dragged)) /\
  ~ likedAndSeenOnly pikachu
      (session 400 threeAnswers [] [] [PrefetchEnd; PressLike; TimingEnd]).
Proof.
  intros g dragged.
  split; [reflexivity|].
  split; [reflexivity|].
  split; [reflexivity|].
  split; [reflexivity|].
  split; [|split].
  - intros [L _]. vm_compute in L. discriminate L.
  - intros [_ S]. vm_compute in S. discriminate S.
  - intros [_ S]. vm_compute in S. discriminate S.
Qed.

Section Scenario.
Variable net : nat -> option Pokemon.t.

Lemma fetchPokemon_first seen k p :
  net k = Some p -> includes seen (Pokemon.id p) = false ->
  fetchPokemon net seen k = (Some p, S k).
Proof.
  intros E I. unfold fetchPokemon. rewrite fetchLoop_body, E, I. reflexivity.
Qed.

(** An advance either changes neither the current item nor the seen ids,
    or shows an item and marks its id as seen. *)
Lemma moveToNext_outcome env s :
  (currentPokemon (moveToNext net env s) = currentPokemon s /\
   seenPokemonIds (moveToNext net env s) = seenPokemonIds s) \/
  exists q,
    currentPokemon (moveToNext net env s) = Some q /\
    seenPokemonIds (moveToNext net env s) =
      seenPokemonIds (addSeenPokemon (Pokemon.id q) s).
Proof.
  unfold moveToNext. destruct (Render.nextPokemon env) as [next|].
  - right. exists next. unfold addSeenPokemon.
    cbn [seenPokemonIds currentPokemon setCurrentPokemon setNextPokemon prefetchNext setPrefetches].
    destruct (includes (seenPokemonIds s) (Pokemon.id next)); split; reflexivity.
  - destruct (fetchPokemon net _ _) as [[p|] k].
    + right. exists p. unfold addSeenPokemon.
      cbn [seenPokemonIds currentPokemon setCurrentPokemon setRequests prefetchNext setPrefetches].
      destruct (includes (seenPokemonIds s) (Pokemon.id p)); split; reflexivity.
    + left. split; reflexivity.
Qed.

(** The state the mount effect leaves when the first answer is an
    unseen item. *)
Lemma init_first liked seen p :
  net 0%nat = Some p -> includes seen (Pokemon.id p) = false ->
  let s := init net (render (initial liked seen)) (initial liked seen) in
  likedPokemon s = liked /\ seenPokemonIds s = seen ++ [Pokemon.id p] /\
  currentPokemon s = Some p /\ nextPokemon s = None /\
  isInitialLoading s = false /\ error s = None /\ isAnimating s = false /\
  flights s = [] /\ prefetches s = [seen].
Proof.
  intros E I s. subst s. unfold init.
  cbn [render initial requests setIsInitialLoading Render.seenPokemonIds seenPokemonIds].
  rewrite (fetchPokemon_first seen 0%nat p E I).
  unfold addSeenPokemon. fields.
  rewrite I. repeat split.
Qed.

Lemma prefetchResolve_frame s :
  let s' := prefetchResolve net s in
  likedPokemon s' = likedPokemon s /\ seenPokemonIds s' = seenPokemonIds s /\
  currentPokemon s' = currentPokemon s /\
  isInitialLoading s' = isInitialLoading s /\ error s' = error s /\
  isAnimating s' = isAnimating s /\ flights s' = flights s.
Proof.
  unfold prefetchResolve. destruct (prefetches s) as [|seen rest]; [repeat split|].
  destruct (fetchPokemon net seen (requests s)) as [[p|] k]; repeat split.
Qed.

(** C5, as the code has it. The store is empty and the first answer of
    the API is an item [p] with id 25; the prefetch started by the mount
    effect has resolved or not. A release with [dx = 200] on a screen 400
    wide ([T = 100]) is a commit to the right. Once a commit to the right
    started by the current render (a press on the like button) has
    completed, the liked collection is exactly the liked item made of
    [p], and the seen ids are 25 followed by the id of the item the
    screen advanced to: they are exactly 25 alone only when the advance
    found no item or found an item with id 25 again. *)
Theorem like_scenario p (prefetched : bool) :
  net 0%nat = Some p -> Pokemon.id p = 25 ->
  let g := {| dx := 200; dy := 0 |} in
  let mount := render (initial [] []) in
  let s1 := session 400 net [] [] (if prefetched then [PrefetchEnd] else []) in
  let s2 := run 400 net mount [PressLike; TimingEnd] s1 in
  (forall env s, onPanResponderRelease 400 net env g s = swipeRight 400 env s) /\
  currentPokemon s1 = Some p /\
  seenPokemonIds s1 = [25] /\
  likedPokemon s1 = [] /\
  likedPokemon s2 = [toLiked p] /\
  exists q, currentPokemon s2 = Some q /\
            seenPokemonIds s2 = if Pokemon.id q =? 25 then [25] else [25; Pokemon.id q].
Proof.
  intros E I g mount s1 s2.
  split. { intros env s. apply release_right. reflexivity. }
  assert (U : includes [] (Pokemon.id p) = false) by reflexivity.
  pose proof (init_first [] [] p E U) as F. cbn zeta in F. rewrite I in F.
  assert (F1 : likedPokemon s1 = [] /\ seenPokemonIds s1 = [25] /\
               currentPokemon s1 = Some p /\ isInitialLoading s1 = false /\
               error s1 = None /\ isAnimating s1 = false /\ flights s1 = []).
  { subst s1. unfold session. destruct prefetched; cbn [run step].
    - pose proof (prefetchResolve_frame
                    (init net (render (initial [] [])) (initial [] []))) as R.
      cbn zeta in R.
      destruct R as (R1 & R2 & R3 & R4 & R5 & R6 & R7).
      destruct F as (G1 & G2 & G3 & G4 & G5 & G6 & G7 & G8 & G9).
      rewrite R1, R2, R3, R4, R5, R6, R7. repeat split; assumption.
    - destruct F as (G1 & G2 & G3 & G4 & G5 & G6 & G7 & G8 & G9).
      repeat split; assumption. }
  clearbody s1. clear F.
  destruct F1 as (L1 & S1 & C1 & IL & ER & AN & FL).
  split; [exact C1|]. split; [exact S1|]. split; [exact L1|].
  subst s2. cbn [run step].
  assert (CS : cardShown s1 = true).
  { unfold cardShown. rewrite IL, ER, C1. reflexivity. }
  rewrite CS. unfold handleLike, swipeRight.
  cbn [render Render.isAnimating Render.currentPokemon]. rewrite AN, C1.
  cbn [orb isNull]. unfold timingEnd. fields. rewrite FL.
  cbn [app direction captured toValue].
  match goal with
  | |- context [swipeRightDone net _ ?t] => set (X := t)
  end.
  assert (LX : likedPokemon X = []) by exact L1.
  assert (SX : seenPokemonIds X = [25]) by exact S1.
  assert (CX : currentPokemon X = Some p) by exact C1.
  assert (NL : isLiked X (Pokemon.id p) = false).
  { unfold isLiked. rewrite LX. reflexivity. }
  clearbody X.
  split.
  - rewrite swipeRightDone_liked. fields. rewrite C1, NL, LX. reflexivity.
  - unfold swipeRightDone. fields. rewrite C1, NL. cbn [negb].
    match goal with
    | |- context [moveToNext net ?e ?t] => set (Y := t); set (env := e)
    end.
    assert (SY : seenPokemonIds Y = [25]).
    { subst Y. fields. rewrite addLikedPokemon_seen. exact SX. }
    assert (CY : currentPokemon Y = Some p).
    { subst Y. fields. unfold addLikedPokemon.
      destruct (isLiked X (LikedPokemon.id (toLiked p))); exact CX. }
    clearbody Y env.
    destruct (moveToNext_outcome env Y) as [[C S] | [q [C S]]].
    + exists p. rewrite C, S, CY, SY, I. split; reflexivity.
    + exists q. rewrite C, S. split; [reflexivity|].
      unfold addSeenPokemon. rewrite SY.
      cbn [includes existsb]. rewrite orb_false_r.
      destruct (Pokemon.id q =? 25); fields; [exact SY | reflexivity].
Qed.
End Scenario.

Lemma like_scenario_witness :
  let mount := render (initial [] []) in
  let s1 := session 400 threeAnswers [] [] [PrefetchEnd] in
  let s2 := run 400 threeAnswers mount [PressLike; TimingEnd] s1 in
  threeAnswers 0%nat = Some pikachu /\ Pokemon.id pikachu = 25 /\
  likedPokemon s2 = [toLiked pikachu] /\
  currentPokemon s2 = Some bulbasaur /\
  seenPokemonIds s2 = [25; 1].
Proof.
  intros mount s1 s2.
  assert (E : threeAnswers 0%nat = Some pikachu) by reflexivity.
  assert (I : Pokemon.id pikachu = 25) by reflexivity.
  pose proof (like_scenario threeAnswers pikachu true E I) as P.
  cbn zeta in P.
  split; [exact E|]. split; [exact I|].
  split; [apply P|]. split; reflexivity.
Defined.

(** ** Gestures while a fly-out is running *)

(** The first render has [isAnimating = false], whatever the store
    holds, so the [onStartShouldSetPanResponder] that [useRef] keeps
    answers [true] for the life of the screen. *)
Lemma mount_handler_accepts liked seen :
  onStartShouldSetPanResponder (render (initial liked seen)) = true.
Proof. reflexivity. Qed.

(** C9 on the code, at a concrete input: the like button is pressed, the
    fly-out is running and [isAnimating] is set; a finger that lands on
    the card then is accepted as the start of a gesture, where a handler
    of the current render would have refused it. The first move of that
    gesture writes the position, which stops the fly-out: its callback
    runs at once, the like is committed and the screen advances before
    the animation has run its course, and the card is left at the
    vertical offset of the drag. *)
Theorem touch_accepted_during_flyout :
  let mount := render (initial [] []) in
  let g := {| dx := 30; dy := 8 |} in
  let s := session 400 threeAnswers [] [] [PrefetchEnd; PressLike] in
  let s' := run 400 threeAnswers mount [Touch; Move g] s in
  isAnimating s = true /\
  List.length (flights s) = 1%nat /\
  likedPokemon s = [] /\
  onStartShouldSetPanResponder (render s) = false /\
  onStartShouldSetPanResponder mount = true /\
  responder (step 400 threeAnswers mount Touch s) = true /\
  flights s' = [] /\
  isAnimating s' = false /\
  likedPokemon s' = [toLiked pikachu] /\
  currentPokemon s' = Some bulbasaur /\
  position s' = {| x := 0; y := 8 * (1 # 2) |}.
Proof. repeat split. Qed.

Section Guard.

Variable width : Q.
Variable net : nat -> option Pokemon.t.

Lemma moveToNext_flights env s :
  isAnimating (moveToNext net env s) = isAnimating s /\
  flights (moveToNext net env s) = flights s.
Proof.
  unfold moveToNext, addSeenPokemon.
  destruct (Render.nextPokemon env) as [next|].
  - fields. destruct (includes (seenPokemonIds s) (Pokemon.id next)); split; reflexivity.
  - destruct (fetchPokemon net _ _) as [[p|] k]; [|split; reflexivity].
    fields. destruct (includes (seenPokemonIds s) (Pokemon.id p)); split; reflexivity.
Qed.

Lemma handleRetry_flights env s :
  isAnimating (handleRetry net env s) = isAnimating s /\
  flights (handleRetry net env s) = flights s.
Proof.
  unfold handleRetry, addSeenPokemon.
  destruct (fetchPokemon net _ _) as [[p|] k]; [|split; reflexivity].
  fields.
  destruct (includes (seenPokemonIds s) (Pokemon.id p)); split; reflexivity.
Qed.

Lemma prefetchResolve_flights s :
  isAnimating (prefetchResolve net s) = isAnimating s /\
  flights (prefetchResolve net s) = flights s.
Proof.
  destruct (prefetchResolve_frame net s) as (_ & _ & _ & _ & _ & A & F).
  split; assumption.
Qed.

Lemma swipeRightDone_flights env s :
  isAnimating (swipeRightDone net env s) = false /\
  flights (swipeRightDone net env s) = flights s.
Proof.
  unfold swipeRightDone.
  destruct (moveToNext_flights env
    (setIsAnimating false (setValue origin
       match Render.currentPokemon env with
       | Some currentPokemon =>
           if negb (isLiked s (Pokemon.id currentPokemon))
           then addLikedPokemon (toLiked currentPokemon) s else s
       | None => s
       end))) as [A F].
  rewrite A, F. split; [reflexivity|]. fields.
  destruct (Render.currentPokemon env) as [p|]; [|reflexivity].
  destruct (negb (isLiked s (Pokemon.id p))); [|reflexivity].
  unfold addLikedPokemon.
  destruct (isLiked s (LikedPokemon.id (toLiked p))); reflexivity.
Qed.

Lemma swipeLeftDone_flights env s :
  isAnimating (swipeLeftDone net env s) = false /\
  flights (swipeLeftDone net env s) = flights s.
Proof.
  unfold swipeLeftDone.
  destruct (moveToNext_flights env (setIsAnimating false (setValue origin s)))
    as [A F].
  rewrite A, F. split; reflexivity.
Qed.

Lemma oneFlight_same s s' :
  isAnimating s' = isAnimating s -> flights s' = flights s ->
  oneFlight s -> oneFlight s'.
Proof. unfold oneFlight. intros -> ->. tauto. Qed.

Lemma swipeRight_fresh s : oneFlight s -> oneFlight (swipeRight width (render s) s).
Proof.
  intros O. unfold swipeRight. fields.
  destruct O as [[A F] | [A F]]; rewrite A; cbn [orb]; [left; split; assumption|].
  destruct (isNull (currentPokemon s)); [right; split; assumption|].
  left. fields. rewrite F. split; [reflexivity|]. eexists. reflexivity.
Qed.

Lemma swipeLeft_fresh s : oneFlight s -> oneFlight (swipeLeft width (render s) s).
Proof.
  intros O. unfold swipeLeft. fields.
  destruct O as [[A F] | [A F]]; rewrite A; cbn [orb]; [left; split; assumption|].
  destruct (isNull (currentPokemon s)); [right; split; assumption|].
  left. fields. rewrite F. split; [reflexivity|]. eexists. reflexivity.
Qed.

(** The handlers [useRef] keeps close over a render without a current
    item, so the commit they reach returns at its guard. *)
Lemma release_mount mount g s :
  Render.currentPokemon mount = None ->
  onPanResponderRelease width net mount g s = s \/
  onPanResponderRelease width net mount g s = resetPosition net s.
Proof.
  intros C. unfold onPanResponderRelease, swipeRight, swipeLeft.
  rewrite C. cbn [isNull]. rewrite orb_true_r.
  destruct (Qltb (SWIPE_THRESHOLD width) (dx g)); [left; reflexivity|].
  destruct (Qltb (dx g) (- SWIPE_THRESHOLD width)); [left|right]; reflexivity.
Qed.

Lemma flightCallback_flights f s :
  isAnimating (flightCallback net f s) = false /\
  flights (flightCallback net f s) = flights s.
Proof.
  unfold flightCallback. destruct (direction f);
    [apply swipeRightDone_flights | apply swipeLeftDone_flights].
Qed.

Lemma endFlights_flights fs : forall s,
  isAnimating (endFlights net fs s)
    = match fs with [] => isAnimating s | _ :: _ => false end /\
  flights (endFlights net fs s) = flights s.
Proof.
  induction fs as [|f fs IH]; intros s; [split; reflexivity|].
  cbn [endFlights].
  destruct (IH (flightCallback net f s)) as [A F].
  destruct (flightCallback_flights f s) as [B G].
  rewrite A, F, G. split; [|reflexivity].
  destruct fs; [exact B | reflexivity].
Qed.

(** Stopping what runs on the position leaves no fly-out running and
    [isAnimating] cleared. *)
Lemma stopAnimation_flights s :
  oneFlight s ->
  isAnimating (stopAnimation net s) = false /\ flights (stopAnimation net s) = [].
Proof.
  intros O. unfold stopAnimation.
  destruct (endFlights_flights (flights s) (setFlights [] (setSpring None s))) as [A F].
  rewrite A, F. split; [|reflexivity].
  destruct O as [[_ [f E]] | [B E]]; rewrite E; [reflexivity | exact B].
Qed.

Lemma move_flights g s :
  oneFlight s ->
  isAnimating (onPanResponderMove net g s) = false /\
  flights (onPanResponderMove net g s) = [].
Proof.
  intros O. unfold onPanResponderMove. cbv zeta. fields.
  apply stopAnimation_flights. revert O. apply oneFlight_same; reflexivity.
Qed.

Lemma resetPosition_flights s :
  oneFlight s ->
  isAnimating (resetPosition net s) = false /\ flights (resetPosition net s) = [].
Proof.
  intros O. unfold resetPosition. fields. apply stopAnimation_flights. exact O.
Qed.

Lemma timingEnd_oneFlight s : oneFlight s -> oneFlight (timingEnd net s).
Proof.
  intros O. unfold timingEnd.
  destruct O as [[A [f F]] | [A F]]; rewrite F; [|right; split; assumption].
  right. destruct (direction f).
  - destruct (swipeRightDone_flights (captured f)
                (setValue (toValue f) (setFlights [] s))) as [B G].
    rewrite B, G. split; reflexivity.
  - destruct (swipeLeftDone_flights (captured f)
                (setValue (toValue f) (setFlights [] s))) as [B G].
    rewrite B, G. split; reflexivity.
Qed.

Lemma step_oneFlight mount e s :
  Render.currentPokemon mount = None ->
  oneFlight s -> oneFlight (step width net mount e s).
Proof.
  intros C O. destruct e; cbn [step].
  - destruct (cardShown s && onStartShouldSetPanResponder mount);
      [apply (oneFlight_same s); [reflexivity..|exact O] | exact O].
  - destruct (responder s); [right; apply move_flights; exact O|].
    destruct (cardShown s && onMoveShouldSetPanResponder mount gesture);
      [apply (oneFlight_same s); [reflexivity..|exact O] | exact O].
  - destruct (responder s); [|exact O].
    assert (O' : oneFlight (setResponder false s))
      by (revert O; apply oneFlight_same; reflexivity).
    destruct (release_mount mount gesture (setResponder false s) C) as [E|E];
      rewrite E; [exact O' | right; apply resetPosition_flights; exact O'].
  - destruct (cardShown s); [apply swipeRight_fresh|]; exact O.
  - destruct (cardShown s); [apply swipeLeft_fresh|]; exact O.
  - destruct (retryShown s); [|exact O].
    destruct (handleRetry_flights (render s) s) as [A F].
    apply (oneFlight_same s); assumption.
  - apply timingEnd_oneFlight. exact O.
  - unfold springEnd. destruct (spring s); [|exact O].
    apply (oneFlight_same s); [reflexivity..|exact O].
  - destruct (prefetchResolve_flights s) as [A F].
    apply (oneFlight_same s); assumption.
Qed.

(** Whatever the events after the mount, two fly-outs never run at the
    same time. *)
Lemma session_oneFlight liked seen es :
  oneFlight (session width net liked seen es).
Proof.
  unfold session.
  assert (O : oneFlight (init net (render (initial liked seen)) (initial liked seen))).
  { right. unfold init, addSeenPokemon.
    destruct (fetchPokemon net _ _) as [[p|] k]; [|split; reflexivity].
    fields. destruct (includes seen (Pokemon.id p)); split; reflexivity. }
  revert O.
  generalize (init net (render (initial liked seen)) (initial liked seen)).
  induction es as [|e es IH]; intros s O; [exact O|].
  cbn [run]. apply IH. apply step_oneFlight; [reflexivity | exact O].
Qed.

(** While [isAnimating] is set, a press on either button changes
    nothing. *)
Lemma press_refused_while_animating mount s :
  isAnimating s = true ->
  step width net mount PressLike s = s /\ step width net mount PressDislike s = s.
Proof.
  intros A. cbn [step]. unfold handleLike, handleDislike, swipeRight, swipeLeft.
  fields. rewrite A. cbn [orb].
  destruct (cardShown s); split; reflexivity.
Qed.

End Guard.

(** ** Dragging *)

Section Dragging.

Variable width : Q.
Variable net : nat -> option Pokemon.t.

Lemma stopAnimation_idle s :
  flights s = [] -> stopAnimation net s = setFlights [] (setSpring None s).
Proof. intros F. unfold stopAnimation. rewrite F. reflexivity. Qed.

(** C6, as the code has it. While the card is the responder (the drag is
    on) and no fly-out is running, a move event with pointer delta
    [(dx, dy)] sets the stored offset to exactly [(dx, dy * 0.5)]: the
    horizontal component follows the pointer, the vertical one follows
    it at half the pace. The store, the items and the flags are as they
    were. *)
Theorem move_tracks_pointer mount g s :
  responder s = true ->
  flights s = [] ->
  let s' := step width net mount (Move g) s in
  position s' = {| x := dx g; y := dy g * (1 # 2) |} /\
  s' = setValue {| x := dx g; y := dy g * (1 # 2) |} (setSpring None s).
Proof.
  intros R F. cbn [step]. rewrite R. unfold onPanResponderMove. cbv zeta.
  rewrite stopAnimation_idle by exact F.
  split; [reflexivity|].
  destruct s; cbn in F; subst; reflexivity.
Qed.

(** What C7 says of a release within the threshold holds while no
    fly-out is running: the release runs [resetPosition] and nothing
    else, the liked collection is the one before the release, the card
    no longer is the responder, and when the spring has come to rest the
    offset is exactly [(0, 0)]. *)
Lemma release_within_threshold mount g s :
  responder s = true ->
  flights s = [] ->
  (Qabs (dx g) <= SWIPE_THRESHOLD width)%Q ->
  let s' := step width net mount (Release g) s in
  let s'' := step width net mount SpringEnd s' in
  s' = setSpring (Some origin) (setResponder false s) /\
  likedPokemon s' = likedPokemon s /\
  flights s' = [] /\
  isAnimating s' = isAnimating s /\
  position s'' = {| x := 0; y := 0 |} /\
  spring s'' = None /\
  responder s'' = false /\
  flights s'' = [] /\
  likedPokemon s'' = likedPokemon s.
Proof.
  intros R F H. cbn zeta.
  assert (E : step width net mount (Release g) s
              = setSpring (Some origin) (setResponder false s)).
  { cbn [step]. rewrite R. rewrite release_reset by exact H.
    unfold resetPosition. rewrite stopAnimation_idle by exact F.
    destruct s; cbn in F; subst; reflexivity. }
  rewrite E. cbn [step]. unfold springEnd. fields. rewrite F. repeat split.
Qed.

End Dragging.

(** C6 fails on the code: a move by [(0, 2)] stores the offset [(0, 1)]. *)
Lemma move_offset_counterexample :
  let s := session 400 threeAnswers [] [] [PrefetchEnd; Touch] in
  let s' := step 400 threeAnswers (render (initial [] [])) (Move {| dx := 0; dy := 2 |}) s in
  responder s = true /\
  flights s = [] /\
  (y (position s') == 1)%Q /\
  ~ (y (position s') == 2)%Q.
Proof.
  intros s s'. split; [reflexivity|]. split; [reflexivity|]. split; [reflexivity|].
  intros H. vm_compute in H. discriminate H.
Qed.

Lemma move_tracks_pointer_witness :
  let mount := render (initial [] []) in
  let s := session 400 threeAnswers [] [] [PrefetchEnd; Touch] in
  let s' := step 400 threeAnswers mount (Move {| dx := 30; dy := 8 |}) s in
  responder s = true /\
  flights s = [] /\
  position s' = {| x := 30; y := 8 * (1 # 2) |}.
Proof.
  intros mount s s'.
  assert (R : responder s = true) by reflexivity.
  assert (F : flights s = []) by reflexivity.
  split; [exact R|]. split; [exact F|].
  exact (proj1 (move_tracks_pointer 400 threeAnswers mount {| dx := 30; dy := 8 |} s R F)).
Defined.

Lemma release_within_threshold_example :
  let mount := render (initial [] []) in
  let g := {| dx := 100; dy := 12 |} in
  let s := session 400 threeAnswers [] [] [PrefetchEnd; Touch; Move g] in
  let s'' := run 400 threeAnswers mount [Release g; SpringEnd] s in
  responder s = true /\
  position s'' = {| x := 0; y := 0 |} /\
  likedPokemon s'' = likedPokemon s.
Proof.
  intros mount g s s''.
  assert (R : responder s = true) by reflexivity.
  assert (F : flights s = []) by reflexivity.
  assert (H : (Qabs (dx g) <= SWIPE_THRESHOLD 400)%Q) by (apply Qle_bool_iff; reflexivity).
  pose proof (release_within_threshold 400 threeAnswers mount g s R F H) as P.
  cbn zeta in P.
  split; [exact R|].
  split; [apply P | apply P].
Defined.


(** * Further properties of the code *)

(** ** The fetch helper, whatever the API answers *)

Section FetchAlways.

Variable net : nat -> option Pokemon.t.

(** What a run of the loop reads and returns. *)
Lemma fetchLoop_reads fuel : forall seen attempts k,
  (attempts < maxAttempts)%nat -> (maxAttempts <= attempts + fuel)%nat ->
  let r := fst (fetchLoop net fuel seen attempts k) in
  let k' := snd (fetchLoop net fuel seen attempts k) in
  (k < k')%nat /\ (k' - k <= maxAttempts - attempts)%nat /\
  (forall i, (k <= i < k' - 1)%nat ->
     exists q, net i = Some q /\ includes seen (Pokemon.id q) = true) /\
  match r with
  | Some p => net (k' - 1)%nat = Some p /\
              (includes seen (Pokemon.id p) = false \/
               (k' - k = maxAttempts - attempts)%nat)
  | None => net (k' - 1)%nat = None
  end.
Proof.
  induction fuel as [|fuel IH]; intros seen attempts k A F; [lia|].
  rewrite fetchLoop_body.
  destruct (net k) as [p|] eqn:E.
  - destruct (includes seen (Pokemon.id p)) eqn:I;
      [destruct (S attempts <? maxAttempts)%nat eqn:L|]; cbn [andb fst snd].
    + apply Nat.ltb_lt in L.
      specialize (IH seen (S attempts) (S k) L ltac:(lia)).
      cbn zeta in IH. destruct IH as (B1 & B2 & B3 & B4).
      split; [lia|]. split; [lia|]. split; [|].
      * intros i Hi. destruct (Nat.eq_dec i k) as [->|N].
        -- exists p. split; assumption.
        -- apply B3. lia.
      * destruct (fst (fetchLoop net fuel seen (S attempts) (S k))) as [q|].
        -- destruct B4 as [B4 [B5|B5]]; split; try exact B4; [left; exact B5|right; lia].
        -- exact B4.
    + apply Nat.ltb_ge in L.
      split; [lia|]. split; [lia|]. split; [intros i Hi; lia|].
      replace (S k - 1)%nat with k by lia. split; [exact E|right; lia].
    + split; [lia|]. split; [lia|]. split; [intros i Hi; lia|].
      replace (S k - 1)%nat with k by lia. split; [exact E|left; exact I].
  - cbn [fst snd]. split; [lia|]. split; [lia|]. split; [intros i Hi; lia|].
    replace (S k - 1)%nat with k by lia. exact E.
Qed.

(** X1. A call of the helper sends at least one request and at most 10,
    whatever the API answers and whatever the seen ids are. *)
Theorem fetchPokemon_request_bounds seen k :
  (k < snd (fetchPokemon net seen k) <= k + 10)%nat.
Proof.
  destruct (fetchLoop_reads maxAttempts seen 0%nat k) as (B1 & B2 & _);
    [unfold maxAttempts; lia .. |].
  unfold fetchPokemon. unfold maxAttempts in *. lia.
Qed.

(** X2. What the helper returns is the answer to its last request: an
    item when that request answered with one, the failure signal when it
    failed. All the requests before the last were answered with seen
    items, and a seen item is returned only by the 10th request. *)
Theorem fetchPokemon_returns_last_answer seen k :
  let r := fst (fetchPokemon net seen k) in
  let last := (snd (fetchPokemon net seen k) - 1)%nat in
  net last = r /\
  (forall i, (k <= i < last)%nat ->
     exists q, net i = Some q /\ includes seen (Pokemon.id q) = true) /\
  (forall p, r = Some p -> includes seen (Pokemon.id p) = true ->
             last = (k + 9)%nat).
Proof.
  destruct (fetchLoop_reads maxAttempts seen 0%nat k) as (B1 & B2 & B3 & B4);
    [unfold maxAttempts; lia .. |].
  unfold fetchPokemon. cbn zeta.
  destruct (fst (fetchLoop net maxAttempts seen 0 k)) as [p|].
  - destruct B4 as [B4 B5]. split; [exact B4|]. split; [exact B3|].
    intros q [= <-] S. destruct B5 as [B5|B5]; [congruence|].
    unfold maxAttempts in *. lia.
  - split; [exact B4|]. split; [exact B3|]. intros p [=].
Qed.

(** X3. The helper gives up only on a failed request: when the next 10
    requests are all answered, it returns an item. *)
Theorem fetchPokemon_succeeds_when_api_does seen k :
  (forall i, (i < 10)%nat -> net (k + i)%nat <> None) ->
  exists p, fst (fetchPokemon net seen k) = Some p.
Proof.
  intros H.
  destruct (fetchLoop_reads maxAttempts seen 0%nat k) as (B1 & B2 & _ & B4);
    [unfold maxAttempts; lia .. |].
  unfold fetchPokemon.
  destruct (fst (fetchLoop net maxAttempts seen 0 k)) as [p|]; [exists p; reflexivity|].
  exfalso. apply (H (snd (fetchLoop net maxAttempts seen 0 k) - 1 - k)%nat).
  - unfold maxAttempts in *. lia.
  - replace (k + (snd (fetchLoop net maxAttempts seen 0 k) - 1 - k))%nat
      with (snd (fetchLoop net maxAttempts seen 0 k) - 1)%nat by lia.
    exact B4.
Qed.

End FetchAlways.

Lemma fetchPokemon_succeeds_when_api_does_witness :
  (forall i, (i < 10)%nat -> always pikachu (0 + i)%nat <> None) /\
  exists p, fst (fetchPokemon (always pikachu) [25] 0) = Some p.
Proof.
  assert (H : forall i, (i < 10)%nat -> always pikachu (0 + i)%nat <> None)
    by (intros i _; discriminate).
  split; [exact H|].
  exact (fetchPokemon_succeeds_when_api_does (always pikachu) [25] 0%nat H).
Defined.

Lemma fetchPokemon_returns_last_answer_witness :
  let net := always pikachu in
  let r := fst (fetchPokemon net [25] 0) in
  let last := Nat.sub (snd (fetchPokemon net [25] 0)) 1 in
  net last = r /\ r = Some pikachu /\ last = 9%nat.
Proof.
  intros net r last.
  destruct (fetchPokemon_returns_last_answer net [25] 0%nat) as (A & _ & C).
  split; [exact A|]. split; [reflexivity|].
  apply (C pikachu); reflexivity.
Defined.

(** ** What the screen shows after the mount *)

Section Shown.

Variable width : Q.
Variable net : nat -> option Pokemon.t.











(** X5. When the first fetch fails, the screen waits for the retry
    button: no other event, in any number and order, changes anything. *)
Theorem failed_mount_waits_for_retry liked seen es :
  fst (fetchPokemon net seen 0) = None ->
  (forall e, In e es -> e <> PressRetry) ->
  let s := session width net liked seen [] in
  view s = RetryPrompt /\
  run width net (render (initial liked seen)) es s = s.
Proof.
  intros F N s.
  assert (Q : cardShown s = false /\ responder s = false /\ flights s = [] /\
              spring s = None /\ prefetches s = [] /\ view s = RetryPrompt).
  { subst s. unfold session, init. cbn [run]. fields.
    destruct (fetchPokemon net seen 0) as [[p|] k]; [discriminate|].
    repeat split. }
  destruct Q as (C & R & FL & SP & PF & V). split; [exact V|].
  clearbody s. clear V F.
  induction es as [|e es IH]; [reflexivity|].
  cbn [run].
  assert (E : step width net (render (initial liked seen)) e s = s).
  { destruct e; cbn [step]; rewrite ?C, ?R; cbn [andb]; try reflexivity.
    - exfalso. apply (N PressRetry); [left; reflexivity | reflexivity].
    - unfold timingEnd. rewrite FL. reflexivity.
    - unfold springEnd. rewrite SP. reflexivity.
    - unfold prefetchResolve. rewrite PF. reflexivity. }
  rewrite E. apply IH. intros e' H. apply N. right. exact H.
Qed.

End Shown.

Lemma failed_mount_waits_for_retry_witness :
  let net := scripted [None; Some bulbasaur] in
  let es := [Touch; Move {| dx := 200; dy := 0 |}; Release {| dx := 200; dy := 0 |};
             PressLike; TimingEnd; PrefetchEnd; SpringEnd] in
  let s := session 400 net [] [] [] in
  fst (fetchPokemon net [] 0) = None /\
  view s = RetryPrompt /\
  run 400 net (render (initial [] [])) es s = s.
Proof.
  intros net es s.
  assert (F : fst (fetchPokemon net [] 0) = None) by reflexivity.
  assert (N : forall e, In e es -> e <> PressRetry).
  { intros e H. cbn [In es] in H.
    repeat (destruct H as [<-|H]; [discriminate|]). destruct H. }
  split; [exact F|].
  exact (failed_mount_waits_for_retry 400 net [] [] es F N).
Defined.

(** ** Shown before liked *)

Section ShownFirst.

Variable width : Q.
Variable net : nat -> option Pokemon.t.

Lemma addSeenPokemon_In i s : In i (seenPokemonIds (addSeenPokemon i s)).
Proof.
  unfold addSeenPokemon. destruct (includes (seenPokemonIds s) i) eqn:I.
  - apply includes_In. exact I.
  - fields. apply in_or_app. right. left. reflexivity.
Qed.

Lemma seenExtends_In s s' i :
  seenExtends s s' -> In i (seenPokemonIds s) -> In i (seenPokemonIds s').
Proof. intros [more E] H. rewrite E. apply in_or_app. left. exact H. Qed.

Lemma shownFirst_same base s s' :
  currentPokemon s' = currentPokemon s -> flights s' = flights s ->
  likedPokemon s' = likedPokemon s -> seenPokemonIds s' = seenPokemonIds s ->
  shownFirst base s -> shownFirst base s'.
Proof.
  unfold shownFirst, likedIds. intros -> -> -> ->. tauto.
Qed.

(** The state in which a fetched or prefetched item [p] is presented. *)
Lemma shownFirst_present base env p s :
  shownFirst base s ->
  shownFirst base
    (prefetchNext env (addSeenPokemon (Pokemon.id p) (setCurrentPokemon (Some p) s))).
Proof.
  intros (A & B & C).
  pose proof (addSeenPokemon_seen (Pokemon.id p) (setCurrentPokemon (Some p) s)) as X.
  pose proof (addSeenPokemon_In (Pokemon.id p) (setCurrentPokemon (Some p) s)) as I.
  assert (M : forall i, In i (seenPokemonIds s) ->
              In i (seenPokemonIds (addSeenPokemon (Pokemon.id p)
                                      (setCurrentPokemon (Some p) s)))).
  { intros i. apply (seenExtends_In (setCurrentPokemon (Some p) s)). exact X. }
  assert (CU : currentPokemon (addSeenPokemon (Pokemon.id p)
                                 (setCurrentPokemon (Some p) s)) = Some p).
  { unfold addSeenPokemon. destruct (includes _ _); reflexivity. }
  assert (FL : flights (addSeenPokemon (Pokemon.id p)
                          (setCurrentPokemon (Some p) s)) = flights s).
  { unfold addSeenPokemon. destruct (includes _ _); reflexivity. }
  assert (LK : likedPokemon (addSeenPokemon (Pokemon.id p)
                               (setCurrentPokemon (Some p) s)) = likedPokemon s).
  { rewrite addSeenPokemon_liked. reflexivity. }
  unfold shownFirst, likedIds. fields. rewrite CU, FL, LK.
  split; [|split].
  - intros q [= <-]. exact I.
  - intros f q H1 H2. apply M. exact (B f q H1 H2).
  - intros i H. destruct (C i H) as [H'|H']; [left; exact H' | right; apply M; exact H'].
Qed.

Lemma shownFirst_advance base env s :
  shownFirst base s -> shownFirst base (moveToNext net env s).
Proof.
  intros S. unfold moveToNext.
  destruct (Render.nextPokemon env) as [next|].
  - pose proof (shownFirst_present base env next s S) as P.
    revert P. apply shownFirst_same; unfold addSeenPokemon; fields;
      destruct (includes _ _); reflexivity.
  - destruct (fetchPokemon net _ _) as [[p|] k].
    + apply shownFirst_present.
      revert S. apply shownFirst_same; reflexivity.
    + revert S. apply shownFirst_same; reflexivity.
Qed.

Lemma shownFirst_commit_right base env s p :
  Render.currentPokemon env = Some p -> In (Pokemon.id p) (seenPokemonIds s) ->
  shownFirst base s ->
  shownFirst base
    (setIsAnimating false (setValue origin
       (if negb (isLiked s (Pokemon.id p)) then addLikedPokemon (toLiked p) s else s))).
Proof.
  intros C I (A & B & L).
  destruct (negb (isLiked s (Pokemon.id p)));
    [|apply (shownFirst_same base s); [reflexivity..|repeat split; assumption]].
  unfold addLikedPokemon. destruct (isLiked s (LikedPokemon.id (toLiked p)));
    [apply (shownFirst_same base s); [reflexivity..|repeat split; assumption]|].
  unfold shownFirst, likedIds. fields. split; [exact A|]. split; [exact B|].
  intros i H. rewrite map_app in H. apply in_app_or in H.
  destruct H as [H | [<- | []]]; [apply L; exact H | right; exact I].
Qed.

Lemma shownFirst_callback base f s :
  (forall p, Render.currentPokemon (captured f) = Some p ->
             In (Pokemon.id p) (seenPokemonIds s)) ->
  shownFirst base s -> shownFirst base (flightCallback net f s).
Proof.
  intros I S. unfold flightCallback. destruct (direction f).
  - unfold swipeRightDone. apply shownFirst_advance.
    destruct (Render.currentPokemon (captured f)) as [p|] eqn:C.
    + apply (shownFirst_commit_right base (captured f)); [exact C | | exact S].
      apply I. reflexivity.
    + revert S. apply shownFirst_same; reflexivity.
  - unfold swipeLeftDone. apply shownFirst_advance.
    revert S. apply shownFirst_same; reflexivity.
Qed.

Lemma shownFirst_endFlights base fs : forall s,
  (forall f p, In f fs -> Render.currentPokemon (captured f) = Some p ->
               In (Pokemon.id p) (seenPokemonIds s)) ->
  shownFirst base s -> shownFirst base (endFlights net fs s).
Proof.
  induction fs as [|f fs IH]; intros s I S; [exact S|].
  cbn [endFlights]. apply IH.
  - intros g p H C.
    apply (seenExtends_In s); [apply flightCallback_seen|].
    apply (I g p); [right; exact H | exact C].
  - apply shownFirst_callback; [|exact S].
    intros p C. apply (I f p); [left; reflexivity | exact C].
Qed.

Lemma shownFirst_stop base s :
  shownFirst base s -> shownFirst base (stopAnimation net s).
Proof.
  intros (A & B & L). unfold stopAnimation. apply shownFirst_endFlights.
  - exact B.
  - unfold shownFirst, likedIds. fields.
    split; [exact A|]. split; [intros f p []|exact L].
Qed.

Lemma shownFirst_step base mount e s :
  Render.currentPokemon mount = None ->
  shownFirst base s -> shownFirst base (step width net mount e s).
Proof.
  intros M S. destruct e; cbn [step].
  - destruct (cardShown s && onStartShouldSetPanResponder mount);
      [revert S; apply shownFirst_same; reflexivity | exact S].
  - destruct (responder s).
    + unfold onPanResponderMove. cbv zeta.
      apply (shownFirst_same base (stopAnimation net
               (setValue {| x := dx gesture; y := y (position s) |} s)));
        [reflexivity..|].
      apply shownFirst_stop. revert S. apply shownFirst_same; reflexivity.
    + destruct (cardShown s && onMoveShouldSetPanResponder mount gesture);
        [revert S; apply shownFirst_same; reflexivity | exact S].
  - destruct (responder s); [|exact S].
    assert (S' : shownFirst base (setResponder false s))
      by (revert S; apply shownFirst_same; reflexivity).
    destruct (release_mount width net mount gesture (setResponder false s) M) as [E|E];
      rewrite E; [exact S'|].
    unfold resetPosition.
    apply (shownFirst_same base (stopAnimation net (setResponder false s)));
      [reflexivity..|]. apply shownFirst_stop. exact S'.
  - destruct (cardShown s); [|exact S].
    unfold handleLike, swipeRight. destruct (_ || _); [exact S|].
    destruct S as (A & B & L). unfold shownFirst, likedIds. fields.
    split; [exact A|]. split; [|exact L].
    intros f p H C. apply in_app_or in H. destruct H as [H | [<- | []]].
    + exact (B f p H C).
    + apply A. exact C.
  - destruct (cardShown s); [|exact S].
    unfold handleDislike, swipeLeft. destruct (_ || _); [exact S|].
    destruct S as (A & B & L). unfold shownFirst, likedIds. fields.
    split; [exact A|]. split; [|exact L].
    intros f p H C. apply in_app_or in H. destruct H as [H | [<- | []]].
    + exact (B f p H C).
    + apply A. exact C.
  - destruct (retryShown s); [|exact S].
    unfold handleRetry. destruct (fetchPokemon net _ _) as [[p|] k].
    + pose proof (shownFirst_present base (render s) p
                    (setRequests k (setError None (setIsInitialLoading true s)))) as P.
      assert (S' : shownFirst base
                     (setRequests k (setError None (setIsInitialLoading true s))))
        by (revert S; apply shownFirst_same; reflexivity).
      specialize (P S'). revert P.
      apply shownFirst_same; unfold addSeenPokemon; fields;
        destruct (includes _ _); reflexivity.
    + revert S. apply shownFirst_same; reflexivity.
  - unfold timingEnd. destruct (flights s) as [|f rest] eqn:FL; [exact S|].
    assert (S' : shownFirst base (setValue (toValue f) (setFlights rest s))).
    { destruct S as (A & B & L). unfold shownFirst, likedIds. fields.
      split; [exact A|]. split; [|exact L].
      intros g p H C. apply (B g p); [rewrite FL; right; exact H | exact C]. }
    destruct (direction f).
    + unfold swipeRightDone. apply shownFirst_advance.
      destruct (Render.currentPokemon (captured f)) as [p|] eqn:C.
      * apply (shownFirst_commit_right base (captured f)); [exact C | | exact S'].
        destruct S as (_ & B & _). apply (B f p); [rewrite FL; left; reflexivity | exact C].
      * revert S'. apply shownFirst_same; reflexivity.
    + unfold swipeLeftDone. apply shownFirst_advance.
      revert S'. apply shownFirst_same; reflexivity.
  - unfold springEnd. destruct (spring s); [|exact S].
    revert S. apply shownFirst_same; reflexivity.
  - destruct (prefetchResolve_frame net s) as (L & SN & C & _ & _ & _ & F).
    revert S. apply shownFirst_same; assumption.
Qed.

Lemma shownFirst_session liked seen es :
  shownFirst (map LikedPokemon.id liked) (session width net liked seen es).
Proof.
  unfold session.
  assert (S : shownFirst (map LikedPokemon.id liked)
                (init net (render (initial liked seen)) (initial liked seen))).
  { unfold init. destruct (fetchPokemon net _ _) as [[p|] k].
    - pose proof (shownFirst_present (map LikedPokemon.id liked)
                    (render (initial liked seen)) p
                    (setRequests k (setIsInitialLoading true (initial liked seen)))) as P.
      assert (S0 : shownFirst (map LikedPokemon.id liked)
                     (setRequests k (setIsInitialLoading true (initial liked seen)))).
      { unfold shownFirst, likedIds. fields.
        split; [intros q [=]|]. split; [intros f q []|]. intros i H. left. exact H. }
      specialize (P S0). revert P.
      apply shownFirst_same; unfold addSeenPokemon; fields;
        destruct (includes _ _); reflexivity.
    - unfold shownFirst, likedIds. fields.
      split; [intros q [=]|]. split; [intros f q []|]. intros i H. left. exact H. }
  revert S.
  generalize (init net (render (initial liked seen)) (initial liked seen)).
  induction es as [|e es IH]; intros s S; [exact S|].
  cbn [run]. apply IH. apply shownFirst_step; [reflexivity | exact S].
Qed.

(** X6. At every moment of a session the id of the item on the card is
    among the seen ids: the mount effect, the retry and the advance mark
    an item as seen in the same turn in which they show it. *)
Theorem current_item_is_seen liked seen es p :
  currentPokemon (session width net liked seen es) = Some p ->
  In (Pokemon.id p) (seenPokemonIds (session width net liked seen es)).
Proof.
  intros C. destruct (shownFirst_session liked seen es) as (A & _ & _).
  apply A. exact C.
Qed.

(** X7. Only items that were shown get liked: after any session every
    id in the liked collection is an id that was liked before the screen
    was mounted or an id among the seen ids. *)
Theorem liked_items_were_seen liked seen es i :
  In i (likedIds (session width net liked seen es)) ->
  In i (map LikedPokemon.id liked) \/
  In i (seenPokemonIds (session width net liked seen es)).
Proof.
  intros H. destruct (shownFirst_session liked seen es) as (_ & _ & L).
  apply L. exact H.
Qed.

End ShownFirst.

Lemma current_item_is_seen_witness :
  let s := session 400 threeAnswers [] []
             [PrefetchEnd; PressDislike; TimingEnd; PrefetchEnd; PressLike; TimingEnd] in
  currentPokemon s = Some charmander /\
  In (Pokemon.id charmander) (seenPokemonIds s).
Proof.
  intros s.
  assert (C : currentPokemon s = Some charmander) by reflexivity.
  split; [exact C|].
  exact (current_item_is_seen 400 threeAnswers [] [] _ charmander C).
Defined.

Lemma liked_items_were_seen_witness :
  let s := session 400 threeAnswers [] []
             [PrefetchEnd; PressDislike; TimingEnd; PrefetchEnd; PressLike; TimingEnd] in
  In 1 (likedIds s) /\
  (In 1 (map LikedPokemon.id []) \/ In 1 (seenPokemonIds s)).
Proof.
  intros s.
  assert (H : In 1 (likedIds s)) by (left; reflexivity).
  split; [exact H|].
  exact (liked_items_were_seen 400 threeAnswers [] [] _ 1 H).
Defined.

(** ** How the liked collection changes *)

Lemma moveToNext_position net env s :
  position (moveToNext net env s) = position s.
Proof.
  unfold moveToNext, addSeenPokemon.
  destruct (Render.nextPokemon env) as [next|].
  - fields. destruct (includes (seenPokemonIds s) (Pokemon.id next)); reflexivity.
  - destruct (fetchPokemon net _ _) as [[p|] k]; [|reflexivity].
    fields. destruct (includes (seenPokemonIds s) (Pokemon.id p)); reflexivity.
Qed.

Section LikedGrowth.

Variable width : Q.
Variable net : nat -> option Pokemon.t.

(** X8. The screen only ever appends to the liked collection: after any
    sequence of events, from any state, the collection is the earlier
    one followed by new items, in like order. Nothing is removed,
    replaced or reordered. *)
Theorem liked_is_append_only mount es : forall s,
  exists more, likedPokemon (run width net mount es s) = likedPokemon s ++ more.
Proof.
  intros s. destruct (run_grows width net mount es s) as [E _]. exact E.
Qed.

(** X9. When a fly-out ends, whichever way the card flew and whatever
    the advance fetched, the card is back at exactly (0, 0) and
    [isAnimating] is cleared. *)
Theorem commit_end_resets_card s :
  flights s <> [] ->
  position (timingEnd net s) = {| x := 0; y := 0 |} /\
  isAnimating (timingEnd net s) = false /\
  List.length (flights (timingEnd net s)) = pred (List.length (flights s)).
Proof.
  intros N. unfold timingEnd. destruct (flights s) as [|f rest] eqn:FL; [contradiction|].
  destruct (direction f).
  - destruct (swipeRightDone_flights net (captured f)
                (setValue (toValue f) (setFlights rest s))) as [A F].
    rewrite A, F. split; [|split; reflexivity].
    unfold swipeRightDone. rewrite moveToNext_position. reflexivity.
  - destruct (swipeLeftDone_flights net (captured f)
                (setValue (toValue f) (setFlights rest s))) as [A F].
    rewrite A, F. split; [|split; reflexivity].
    unfold swipeLeftDone. rewrite moveToNext_position. reflexivity.
Qed.

End LikedGrowth.

Lemma commit_end_resets_card_witness :
  let s := session 400 (scripted [Some pikachu; None; None]) [] []
             [PrefetchEnd; PressLike] in
  flights s <> [] /\
  position (timingEnd (scripted [Some pikachu; None; None]) s) = {| x := 0; y := 0 |} /\
  isAnimating (timingEnd (scripted [Some pikachu; None; None]) s) = false.
Proof.
  intros s.
  assert (N : flights s <> []) by discriminate.
  destruct (commit_end_resets_card (scripted [Some pikachu; None; None]) s N)
    as (P & A & _).
  split; [exact N|]. split; [exact P | exact A].
Defined.

(** ** Dislike, prefetch and the pan handlers *)

Section Actions.

Variable width : Q.
Variable net : nat -> option Pokemon.t.

(** X10. A dislike never touches the liked collection: neither the
    start of the commit to the left nor its completion callback changes
    it, and a press on the dislike button followed by the end of its
    fly-out leaves the collection as it was. *)
Theorem dislike_never_likes mount s :
  flights s = [] ->
  likedPokemon (run width net mount [PressDislike; TimingEnd] s) = likedPokemon s /\
  (forall env t, likedPokemon (swipeLeft width env t) = likedPokemon t) /\
  (forall env t, likedPokemon (swipeLeftDone net env t) = likedPokemon t).
Proof.
  intros F.
  assert (D : forall env t, likedPokemon (swipeLeftDone net env t) = likedPokemon t).
  { intros env t. unfold swipeLeftDone. rewrite moveToNext_liked. reflexivity. }
  split; [|split; [intros env t; apply swipeLeft_store | exact D]].
  cbn [run step]. unfold handleDislike, swipeLeft, timingEnd.
  destruct (cardShown s); [destruct (_ || _)|]; fields; rewrite F;
    try reflexivity.
  cbn [app direction captured toValue]. rewrite D. reflexivity.
Qed.

(** X11. An advance that finds a prefetched item shows exactly that
    item without asking the API: the item becomes the current one and
    its id a seen id, the prefetch slot is emptied, one new prefetch is
    started, and the liked collection is untouched. *)
Theorem advance_takes_prefetched env s next :
  Render.nextPokemon env = Some next ->
  let s' := moveToNext net env s in
  currentPokemon s' = Some next /\
  nextPokemon s' = None /\
  requests s' = requests s /\
  In (Pokemon.id next) (seenPokemonIds s') /\
  prefetches s' = prefetches s ++ [Render.seenPokemonIds env] /\
  likedPokemon s' = likedPokemon s.
Proof.
  intros N s'. subst s'. unfold moveToNext. rewrite N.
  pose proof (addSeenPokemon_In (Pokemon.id next) (setCurrentPokemon (Some next) s)) as I.
  revert I. unfold addSeenPokemon. fields.
  destruct (includes (seenPokemonIds s) (Pokemon.id next)); fields; intros I;
    repeat split; exact I.
Qed.

(** X12. The release handler the screen keeps from its first render
    never starts a commit: after a drag beyond the threshold, to either
    side, the release only gives up the responder. No fly-out starts,
    [isAnimating] stays as it is, nothing is liked, and the card stays
    at the offset it was dragged to. *)
Theorem release_of_first_render_never_commits liked seen g s :
  let mount := render (initial liked seen) in
  responder s = true ->
  (SWIPE_THRESHOLD width < dx g)%Q \/ (dx g < - SWIPE_THRESHOLD width)%Q ->
  let s' := step width net mount (Release g) s in
  s' = setResponder false s /\
  flights s' = flights s /\ isAnimating s' = isAnimating s /\
  likedPokemon s' = likedPokemon s /\ position s' = position s.
Proof.
  intros mount R H s'.
  assert (E : s' = setResponder false s).
  { subst s'. cbn [step]. rewrite R.
    unfold onPanResponderRelease, swipeRight, swipeLeft. subst mount. fields.
    cbn [orb isNull].
    destruct (Qltb (SWIPE_THRESHOLD width) (dx g)) eqn:A; [reflexivity|].
    destruct (Qltb (dx g) (- SWIPE_THRESHOLD width)) eqn:B; [reflexivity|].
    exfalso. destruct H as [H|H]; apply Qltb_lt in H; congruence. }
  rewrite E. repeat split.
Qed.

(** X13. During a session at most one fly-out runs at any moment, and
    [isAnimating] is set exactly while one runs. *)
Theorem commits_never_overlap liked seen es :
  let s := session width net liked seen es in
  (List.length (flights s) <= 1)%nat /\
  (isAnimating s = true <-> flights s <> []).
Proof.
  intros s. destruct (session_oneFlight width net liked seen es) as [[A [f F]] | [A F]];
    fold s in A, F; rewrite A, F; cbn [List.length].
  - split; [lia|]. split; [discriminate | reflexivity].
  - split; [lia|]. split; [discriminate | intros N; contradiction].
Qed.

End Actions.

Lemma dislike_never_likes_witness :
  let mount := render (initial [] []) in
  let s := session 400 threeAnswers [] [] [PrefetchEnd; PressLike; TimingEnd] in
  flights s = [] /\
  likedPokemon (run 400 threeAnswers mount [PressDislike; TimingEnd] s) = likedPokemon s /\
  currentPokemon (run 400 threeAnswers mount [PressDislike; TimingEnd] s) = Some charmander.
Proof.
  intros mount s.
  assert (F : flights s = []) by reflexivity.
  split; [exact F|].
  split; [exact (proj1 (dislike_never_likes 400 threeAnswers mount s F)) | reflexivity].
Defined.

Lemma advance_takes_prefetched_witness :
  let s := session 400 threeAnswers [] [] [PrefetchEnd] in
  Render.nextPokemon (render s) = Some bulbasaur /\
  currentPokemon (moveToNext threeAnswers (render s) s) = Some bulbasaur /\
  requests (moveToNext threeAnswers (render s) s) = requests s.
Proof.
  intros s.
  assert (N : Render.nextPokemon (render s) = Some bulbasaur) by reflexivity.
  destruct (advance_takes_prefetched threeAnswers (render s) s bulbasaur N)
    as (C & _ & R & _).
  split; [exact N|]. split; [exact C | exact R].
Defined.

Lemma release_of_first_render_never_commits_witness :
  let g := {| dx := 200; dy := 0 |} in
  let s := session 400 threeAnswers [] [] [PrefetchEnd; Touch; Move g] in
  responder s = true /\
  (SWIPE_THRESHOLD 400 < dx g)%Q /\
  step 400 threeAnswers (render (initial [] [])) (Release g) s = setResponder false s /\
  position (step 400 threeAnswers (render (initial [] [])) (Release g) s)
    = {| x := 200; y := 0 * (1 # 2) |}.
Proof.
  intros g s.
  assert (R : responder s = true) by reflexivity.
  assert (H : (SWIPE_THRESHOLD 400 < dx g)%Q) by reflexivity.
  destruct (release_of_first_render_never_commits 400 threeAnswers [] [] g s R
              (or_introl H)) as (E & _ & _ & _ & P).
  split; [exact R|]. split; [exact H|]. split; [exact E|].
  rewrite P. reflexivity.
Defined.

(** ** The keys of the liked grid *)

Lemma to_int_printable z : Z.to_int z <> Decimal.Pos Decimal.Nil /\
                           Z.to_int z <> Decimal.Neg Decimal.Nil.
Proof.
  destruct z as [|p|p]; cbn [Z.to_int]; split; try discriminate;
    intros [= H]; exact (DecimalPos.Unsigned.to_uint_nonnil p H).
Qed.

Lemma decimal_key_injective :
  Injective (fun i : Z => NilZero.string_of_int (Z.to_int i)).
Proof.
  intros a b H. apply DecimalZ.to_int_inj.
  destruct (to_int_printable a) as [A1 A2].
  destruct (to_int_printable b) as [B1 B2].
  pose proof (NilZero.isi (Z.to_int a) A1 A2) as Ia.
  pose proof (NilZero.isi (Z.to_int b) B1 B2) as Ib.
  rewrite H in Ia. rewrite Ia in Ib. injection Ib as E. exact E.
Qed.

(** X16. The keys [FlatList] gets for the liked grid are pairwise
    distinct: two liked items have the same key only if they have the
    same id, and when the collection loaded at the start has no repeated
    id, no session produces a collection with two equal keys. *)
Theorem liked_grid_keys_distinct width net liked seen es :
  NoDup (map LikedPokemon.id liked) ->
  NoDup (map keyExtractor (likedPokemon (session width net liked seen es))) /\
  (forall a b, keyExtractor a = keyExtractor b -> LikedPokemon.id a = LikedPokemon.id b).
Proof.
  intros N. split.
  - assert (R : NoDup (likedIds (session width net liked seen es))).
    { unfold session. apply NoDup_likedIds_run. unfold likedIds.
      unfold init. destruct (fetchPokemon net _ _) as [[p|] k];
        cbn [likedPokemon setIsInitialLoading setError]; [|exact N].
      rewrite present_liked. exact N. }
    unfold likedIds in R.
    apply (Injective_map_NoDup decimal_key_injective) in R.
    rewrite map_map in R. exact R.
  - intros a b H. apply decimal_key_injective. exact H.
Qed.

Lemma liked_grid_keys_distinct_witness :
  let s := session 400 threeAnswers [] []
             [PrefetchEnd; PressLike; TimingEnd; PrefetchEnd; PressLike; TimingEnd] in
  NoDup (map LikedPokemon.id []) /\
  map keyExtractor (likedPokemon s) = ["25"%string; "1"%string] /\
  NoDup (map keyExtractor (likedPokemon s)).
Proof.
  intros s.
  assert (N : NoDup (map LikedPokemon.id [])) by constructor.
  split; [exact N|]. split; [reflexivity|].
  exact (proj1 (liked_grid_keys_distinct 400 threeAnswers [] [] _ N)).
Defined.

(** ** Retry and the first prefetch *)

Section Recovery.

Variable width : Q.
Variable net : nat -> option Pokemon.t.

(** X17. A press on the retry button whose fetch returns an item
    recovers the screen: the prompt is gone, the item is on the card and
    its id is a seen id, and one prefetch is started. *)
Theorem retry_recovers mount s p :
  retryShown s = true ->
  fst (fetchPokemon net (seenPokemonIds s) (requests s)) = Some p ->
  let s' := step width net mount PressRetry s in
  view s' = Card /\
  currentPokemon s' = Some p /\
  error s' = None /\
  In (Pokemon.id p) (seenPokemonIds s') /\
  prefetches s' = prefetches s ++ [seenPokemonIds s] /\
  likedPokemon s' = likedPokemon s.
Proof.
  intros R F s'. subst s'. cbn [step]. rewrite R.
  unfold handleRetry. fields.
  destruct (fetchPokemon net (seenPokemonIds s) (requests s)) as [[q|] k];
    [|discriminate].
  cbn [fst] in F. injection F as ->.
  pose proof (addSeenPokemon_In (Pokemon.id p)
                (setCurrentPokemon (Some p)
                   (setRequests k (setError None (setIsInitialLoading true s))))) as I.
  revert I. unfold view, addSeenPokemon. fields.
  destruct (includes (seenPokemonIds s) (Pokemon.id p)); fields; intros I;
    repeat split; exact I.
Qed.

(** X18. The prefetch the mount effect starts does not know the item the
    mount effect has just shown: it filters against the seen ids of the
    first render. When the API draws that item again, the prefetch takes
    it at once, and the item waiting as the next card is the very item
    on display, although its id is a seen id by then. *)
Theorem mount_prefetch_can_repeat liked seen p :
  net 0%nat = Some p -> net 1%nat = Some p ->
  includes seen (Pokemon.id p) = false ->
  let s := session width net liked seen [PrefetchEnd] in
  currentPokemon s = Some p /\
  nextPokemon s = Some p /\
  In (Pokemon.id p) (seenPokemonIds s) /\
  requests s = 2%nat.
Proof.
  intros E0 E1 I s. subst s. unfold session, init. cbn [run step]. fields.
  rewrite (fetchPokemon_first net seen 0%nat p E0 I).
  unfold addSeenPokemon. fields. rewrite I.
  unfold prefetchResolve. fields. cbn [app].
  rewrite (fetchPokemon_first net seen 1%nat p E1 I). fields.
  repeat split. apply in_or_app. right. left. reflexivity.
Qed.

End Recovery.

Lemma retry_recovers_witness :
  let net := scripted [None; Some bulbasaur] in
  let s := session 400 net [] [] [] in
  let s' := step 400 net (render (initial [] [])) PressRetry s in
  retryShown s = true /\
  view s' = Card /\ currentPokemon s' = Some bulbasaur /\ error s' = None.
Proof.
  intros net s s'.
  assert (R : retryShown s = true) by reflexivity.
  assert (F : fst (fetchPokemon net (seenPokemonIds s) (requests s)) = Some bulbasaur)
    by reflexivity.
  destruct (retry_recovers 400 net (render (initial [] [])) s bulbasaur R F)
    as (V & C & E & _).
  split; [exact R|]. split; [exact V|]. split; [exact C | exact E].
Defined.

Lemma mount_prefetch_can_repeat_witness :
  let net := scripted [Some pikachu; Some pikachu; Some bulbasaur] in
  let s := session 400 net [] [] [PrefetchEnd] in
  net 0%nat = Some pikachu /\ net 1%nat = Some pikachu /\
  currentPokemon s = Some pikachu /\ nextPokemon s = Some pikachu /\
  seenPokemonIds s = [25].
Proof.
  intros net s.
  assert (E0 : net 0%nat = Some pikachu) by reflexivity.
  assert (E1 : net 1%nat = Some pikachu) by reflexivity.
  assert (I : includes [] (Pokemon.id pikachu) = false) by reflexivity.
  destruct (mount_prefetch_can_repeat 400 net [] [] pikachu E0 E1 I) as (C & N & _).
  split; [exact E0|]. split; [exact E1|]. split; [exact C|]. split; [exact N|].
  reflexivity.
Defined.
